(** * recharge-api: the shared REST client and its resource wrappers

    A shallow embedding of [recharge/api/__init__.py] (the base class
    [RechargeResource]: scope checking, the four HTTP helpers and their
    rate-limit retry) and of the resource classes built on it
    ([addresses.py], [products.py], [v2/discounts.py],
    [v2/async_batches.py]).

    Python objects are modelled as follows.
    - The resource object [self] lives in the store: [check_scopes] mutates
      its [allowed_endpoints] list in place.
    - The remote server is a function from the number of requests already
      served and the request to a reply; a reply is either a response or a
      transport failure (an exception raised by the [requests] library).
    - Everything observable that the client does (requests issued, calls of
      [time.sleep], lines given to [log.info]) is appended to a trace.
    - A Python exception is the [Raise] outcome; the store survives it.
    - The helpers retry by calling themselves, so they take fuel: the number
      of nested calls of the helper that may still be made.  Running out of
      fuel is the distinct outcome [OutOfFuel].  In Python the bound on
      nested calls is the interpreter's recursion limit, and a call that
      reaches it ends in [RecursionError]; statements about the result of
      a run therefore assume fuel for the retries they speak of. *)

From Stdlib Require Import String List ZArith Bool Arith Lia.
Import ListNotations.
Open Scope string_scope.

(** ** Values *)

(** JSON documents, as [json=] arguments and as parsed response bodies. *)
#[local] Set Warnings "-register-all".
Inductive json : Type :=
| JNull
| JBool (b : bool)
| JInt (n : Z)
| JStr (s : string)
| JList (items : list json)
| JDict (fields : list (string * json)).

(** [Mapping[str, Any]] used as query parameters. *)
Definition query_params : Type := list (string * json).

(** [TokenScope] is a [Literal] of permission names. *)
Definition TokenScope : Type := string.

Inductive verb : Type := DELETE | GET | PUT | POST.

(** What reaches [requests.<verb>(url, params=, json=, headers=)]. *)
Record request : Type := mk_request {
  req_verb : verb;
  req_url : string;
  req_params : option query_params;
  req_json : option json;
  req_headers : list (string * option string)
}.

(** The parts of a [requests.Response] the client looks at:
    [status_code], [headers["X-Recharge-Limit"]] ([None] when the header
    is absent, so that the lookup raises [KeyError]) and [json()] ([None]
    when the body does not parse, so that [json()] raises). *)
Record response : Type := mk_response {
  status_code : Z;
  recharge_limit : option string;
  json_body : option json
}.

Inductive reply : Type :=
| Answer (r : response)
| Failure (msg : string).

Definition server : Type := nat -> request -> reply.

(** What a helper hands back: [response.json()] or the response itself. *)
Inductive pyvalue : Type :=
| Parsed (j : json)
| RawResponse (r : response).

Inductive exn : Type :=
| ValueError (msg : string)
| KeyError (key : string)
| JSONDecodeError
| RequestException (msg : string).

Inductive event : Type :=
| Sent (rq : request)
| Slept (seconds : Z)
| Logged (line : string).

(** ** The store *)

Record RechargeResource : Type := mk_resource {
  access_token : option string;
  debug : bool;
  scopes : option (list TokenScope);
  allowed_endpoints : list string
}.

Record state : Type := mk_state {
  self : RechargeResource;
  served : nat;
  trace : list event
}.

Inductive outcome (A : Type) : Type :=
| Ret (a : A)
| Raise (e : exn)
| OutOfFuel.
Arguments Ret {A} a.
Arguments Raise {A} e.
Arguments OutOfFuel {A}.

(** ** A state-and-exception monad *)

Definition M (A : Type) : Type := state -> outcome A * state.

Definition ret {A} (a : A) : M A := fun st => (Ret a, st).

Definition raise {A} (e : exn) : M A := fun st => (Raise e, st).

Definition bind {A B} (c : M A) (k : A -> M B) : M B :=
  fun st =>
    match c st with
    | (Ret a, st1) => k a st1
    | (Raise e, st1) => (Raise e, st1)
    | (OutOfFuel, st1) => (OutOfFuel, st1)
    end.

Notation "x <- c ;; k" := (bind c (fun x => k))
  (at level 61, c at next level, right associativity).
Notation "c ;;; k" := (bind c (fun _ => k))
  (at level 61, right associativity).

Definition get_self : M RechargeResource := fun st => (Ret (self st), st).

Definition set_self (r : RechargeResource) : M unit :=
  fun st => (Ret tt, mk_state r (served st) (trace st)).

Definition emit (e : event) : M unit :=
  fun st => (Ret tt, mk_state (self st) (served st) (trace st ++ [e])).

(** ** Python built-ins *)

(** [x in l] on a list of strings. *)
Fixpoint py_in (x : string) (l : list string) : bool :=
  match l with
  | [] => false
  | y :: l' => if String.eqb x y then true else py_in x l'
  end.

(** Truth value of [list | None]: [None] and [[]] are falsy. *)
Definition truthy {A} (l : option (list A)) : bool :=
  match l with
  | None => false
  | Some [] => false
  | Some (_ :: _) => true
  end.

Definition or_empty {A} (l : option (list A)) : list A :=
  match l with
  | None => []
  | Some l' => l'
  end.

(** [repr] of a string without quotes, backslashes or control characters,
    which is what the members of [TokenScope] are. *)
Definition py_repr_str (s : string) : string := "'" ++ s ++ "'".

(** [str] of a list of strings, as an f-string prints it. *)
Definition py_repr_list (l : list string) : string :=
  "[" ++ String.concat ", " (map py_repr_str l) ++ "]".

(** [needle in hay] on strings. *)
Fixpoint py_contains (needle hay : string) : bool :=
  prefix needle hay ||
  match hay with
  | EmptyString => false
  | String _ hay' => py_contains needle hay'
  end.

(** [time.sleep(seconds)] *)
Definition sleep (seconds : Z) : M unit := emit (Slept seconds).

(** [log.info(line)] on the module's logger *)
Definition log_info (line : string) : M unit := emit (Logged line).

(** ** RechargeResource *)

Definition base_url : string := "https://api.rechargeapps.com".

Definition __init__ (access_token : option string) (debug : bool)
    (scopes : option (list TokenScope)) : RechargeResource :=
  mk_resource access_token debug scopes [].

(** [self.headers], built by [__init__] and never changed. *)
Definition headers (r : RechargeResource) : list (string * option string) :=
  [ ("Accept", Some "application/json");
    ("Content-Type", Some "application/json");
    ("X-Recharge-Access-Token", access_token r) ].

(** The loop of [check_scopes], with its accumulator. *)
Fixpoint collect_missing (token : list TokenScope) (required : list TokenScope)
    (missing_scopes : list TokenScope) : list TokenScope :=
  match required with
  | [] => missing_scopes
  | scope :: rest =>
      collect_missing token rest
        (if negb (py_in scope token) then missing_scopes ++ [scope]
         else missing_scopes)
  end.

Definition no_scopes_message : string := "No scopes found for token.".

Definition missing_scopes_message (endpoint : string)
    (missing_scopes : list TokenScope) : string :=
  "Endpoint " ++ endpoint ++ " missing scopes: " ++ py_repr_list missing_scopes.

Definition check_scopes (endpoint : string) (required : list TokenScope) : M unit :=
  this <- get_self ;;
  if py_in endpoint (allowed_endpoints this) then ret tt
  else if negb (truthy (scopes this)) then raise (ValueError no_scopes_message)
  else
    let missing_scopes := collect_missing (or_empty (scopes this)) required [] in
    match missing_scopes with
    | _ :: _ => raise (ValueError (missing_scopes_message endpoint missing_scopes))
    | [] =>
        set_self (mk_resource (access_token this) (debug this) (scopes this)
                    (allowed_endpoints this ++ [endpoint]))
    end.

(** [response.headers["X-Recharge-Limit"]]; the header dictionary of
    [requests] is case-insensitive and reports the lowered key. *)
Definition limit_header (resp : response) : M string :=
  match recharge_limit resp with
  | Some v => ret v
  | None => raise (KeyError "x-recharge-limit")
  end.

Definition log (url : string) (resp : response) : M unit :=
  this <- get_self ;;
  if debug this then
    log_info url ;;;
    v <- limit_header resp ;;
    log_info v
  else ret tt.

(** [f"{self.base_url}/{self.object_list_key}"] *)
Definition url (object_list_key : string) : string :=
  base_url ++ "/" ++ object_list_key.

(** [response.json()] *)
Definition response_json (resp : response) : M pyvalue :=
  match json_body resp with
  | Some j => ret (Parsed j)
  | None => raise JSONDecodeError
  end.

Section Client.

Variable srv : server.

(** [requests.<verb>(url, params=, json=, headers=self.headers)] *)
Definition requests_call (v : verb) (url : string)
    (params : option query_params) (body : option json) : M response :=
  fun st =>
    let rq := mk_request v url params body (headers (self st)) in
    let st1 := mk_state (self st) (S (served st)) (trace st ++ [Sent rq]) in
    match srv (served st) rq with
    | Answer resp => (Ret resp, st1)
    | Failure msg => (Raise (RequestException msg), st1)
    end.

Fixpoint http_delete (fuel : nat) (url : string) (body : option json)
    : M pyvalue :=
  match fuel with
  | O => fun st => (OutOfFuel, st)
  | S fuel' =>
      resp <- requests_call DELETE url None body ;;
      log_info url ;;;
      v <- limit_header resp ;;
      log_info v ;;;
      if (status_code resp =? 429)%Z then http_delete fuel' url None
      else ret (RawResponse resp)
  end.

Fixpoint http_get (fuel : nat) (url : string) (query : option query_params)
    : M pyvalue :=
  match fuel with
  | O => fun st => (OutOfFuel, st)
  | S fuel' =>
      resp <- requests_call GET url query None ;;
      log url resp ;;;
      if (status_code resp =? 429)%Z then
        sleep 1 ;;;
        http_get fuel' url None
      else response_json resp
  end.

Fixpoint http_put (fuel : nat) (url : string) (body : option json)
    (query : option query_params) : M pyvalue :=
  match fuel with
  | O => fun st => (OutOfFuel, st)
  | S fuel' =>
      resp <- requests_call PUT url query body ;;
      log url resp ;;;
      if (status_code resp =? 429)%Z then
        sleep 1 ;;;
        http_put fuel' url body None
      else response_json resp
  end.

Fixpoint http_post (fuel : nat) (url : string) (body : option json)
    (query : option query_params) : M pyvalue :=
  match fuel with
  | O => fun st => (OutOfFuel, st)
  | S fuel' =>
      resp <- requests_call POST url query body ;;
      log url resp ;;;
      if (status_code resp =? 429)%Z then
        sleep 1 ;;;
        http_post fuel' url body None
      else response_json resp
  end.

End Client.

(** ** The resource classes

    Identifiers interpolated into URLs and endpoint names are taken as
    their [str()] text.  Methods of the classes built on the public
    helpers take the server and the fuel of the helper they call. *)

Module AddressResource.

Definition object_list_key : string := "addresses".

Definition create (srv : server) (fuel : nat) (customer_id : string)
    (body : json) : M pyvalue :=
  let required_scopes := ["write_customers"] in
  check_scopes "POST /customers/:customer_id/addresses" required_scopes ;;;
  let url := base_url ++ "/customers/" ++ customer_id ++ "/" ++ object_list_key in
  http_post srv fuel url (Some body) None.

Definition get (srv : server) (fuel : nat) (address_id : string) : M pyvalue :=
  let required_scopes := ["read_customers"] in
  check_scopes ("GET " ++ object_list_key ++ "/:address_id") required_scopes ;;;
  http_get srv fuel (url object_list_key ++ "/" ++ address_id) None.

Definition update (srv : server) (fuel : nat) (address_id : string)
    (body : option json) : M pyvalue :=
  let required_scopes := ["write_customers"] in
  check_scopes ("PUT " ++ object_list_key ++ "/:id") required_scopes ;;;
  http_put srv fuel (url object_list_key ++ "/" ++ address_id) body None.

Definition delete (srv : server) (fuel : nat) (address_id : string)
    : M pyvalue :=
  let required_scopes := ["write_customers"] in
  check_scopes ("DELETE " ++ object_list_key ++ "/:address_id") required_scopes ;;;
  http_delete srv fuel (url object_list_key ++ "/" ++ address_id) None.

Definition list (srv : server) (fuel : nat) (customer_id : string)
    (query : option query_params) : M pyvalue :=
  let required_scopes := ["read_customers"] in
  check_scopes ("GET /customers/:customer_id/" ++ object_list_key)
    required_scopes ;;;
  http_get srv fuel
    (base_url ++ "/customers/" ++ customer_id ++ "/" ++ object_list_key) query.

Definition count (srv : server) (fuel : nat) (query : option query_params)
    : M pyvalue :=
  let required_scopes := ["read_customers"] in
  check_scopes "GET /addresses/count" required_scopes ;;;
  http_get srv fuel (url object_list_key ++ "/count") query.

Definition validate (srv : server) (fuel : nat) (body : json) : M pyvalue :=
  http_post srv fuel (url object_list_key ++ "/validate_address") (Some body) None.

Definition apply_discount (srv : server) (fuel : nat) (address_id : string)
    (body : json) : M pyvalue :=
  let required_scopes := ["write_discounts"] in
  check_scopes "POST /addresses/:address_id/apply_discount" required_scopes ;;;
  http_post srv fuel (url object_list_key ++ "/" ++ address_id ++ "/apply_discount")
    (Some body) None.

Definition remove_discount (srv : server) (fuel : nat) (address_id : string)
    : M pyvalue :=
  let required_scopes := ["write_discounts"] in
  check_scopes "POST /addresses/:address_id/remove_discount" required_scopes ;;;
  http_post srv fuel (url object_list_key ++ "/" ++ address_id ++ "/remove_discount")
    None None.

End AddressResource.

Module ProductResource.

Definition object_list_key : string := "products".

Definition create (srv : server) (fuel : nat) (body : json) : M pyvalue :=
  let required_scopes := ["write_products"] in
  check_scopes "POST /products" required_scopes ;;;
  http_post srv fuel (url object_list_key) (Some body) None.

Definition get (srv : server) (fuel : nat) (product_id : string) : M pyvalue :=
  let required_scopes := ["read_products"] in
  check_scopes ("GET /products/" ++ product_id) required_scopes ;;;
  http_get srv fuel (url object_list_key ++ "/" ++ product_id) None.

Definition update (srv : server) (fuel : nat) (product_id : string)
    (body : json) : M pyvalue :=
  let required_scopes := ["write_products"] in
  check_scopes ("PUT /products/" ++ product_id) required_scopes ;;;
  http_put srv fuel (url object_list_key ++ "/" ++ product_id) (Some body) None.

Definition delete (srv : server) (fuel : nat) (product_id : string)
    : M pyvalue :=
  let required_scopes := ["write_products"] in
  check_scopes ("DELETE /products/" ++ product_id) required_scopes ;;;
  http_delete srv fuel (url object_list_key ++ "/" ++ product_id) None.

Definition list (srv : server) (fuel : nat) (query : query_params)
    : M pyvalue :=
  let required_scopes := ["read_products"] in
  check_scopes "GET /products" required_scopes ;;;
  http_get srv fuel (url object_list_key) (Some query).

Definition count (srv : server) (fuel : nat) : M pyvalue :=
  let required_scopes := ["read_products"] in
  check_scopes "GET /products/count" required_scopes ;;;
  http_get srv fuel (url object_list_key ++ "/count") None.

End ProductResource.

(** The classes of [recharge/api/v2] call the helpers [_http_delete],
    [_http_get], [_http_put] and [_http_post] of their base class.  The base
    class at hand defines none of them, so they are parameters here: any
    computation over the store, called with the arguments the methods pass
    (an argument left out is [None]). *)
Record private_helpers : Type := mk_private_helpers {
  _http_delete : string -> M pyvalue;
  _http_get : string -> option query_params -> M pyvalue;
  _http_put : string -> option json -> M pyvalue;
  _http_post : string -> option json -> M pyvalue
}.

Module DiscountResource.

Definition object_list_key : string := "discounts".

Definition create (h : private_helpers) (body : json) : M pyvalue :=
  let required_scopes := ["write_discounts"] in
  check_scopes ("POST /" ++ object_list_key) required_scopes ;;;
  _http_post h (url object_list_key) (Some body).

Definition get (h : private_helpers) (discount_id : string) : M pyvalue :=
  let required_scopes := ["read_discounts"] in
  check_scopes ("GET /" ++ object_list_key ++ "/:discount_id") required_scopes ;;;
  _http_get h (url object_list_key ++ "/" ++ discount_id) None.

Definition update (h : private_helpers) (discount_id : string) (body : json)
    : M pyvalue :=
  let required_scopes := ["write_discounts"] in
  check_scopes ("PUT /" ++ object_list_key ++ "/:discount_id") required_scopes ;;;
  _http_put h (url object_list_key ++ "/" ++ discount_id) (Some body).

Definition delete (h : private_helpers) (discount_id : string) : M pyvalue :=
  let required_scopes := ["write_discounts"] in
  check_scopes ("DELETE /" ++ object_list_key ++ "/:discount_id")
    required_scopes ;;;
  _http_delete h (url object_list_key ++ "/" ++ discount_id).

Definition list (h : private_helpers) (query : option query_params)
    : M pyvalue :=
  let required_scopes := ["read_discounts"] in
  check_scopes ("GET /" ++ object_list_key) required_scopes ;;;
  _http_get h (url object_list_key) query.

End DiscountResource.

Module AsyncBatchResource.

Definition object_list_key : string := "async_batches".

Definition create (h : private_helpers) (body : json) : M pyvalue :=
  let required_scopes := ["write_batches"] in
  check_scopes ("POST /" ++ object_list_key) required_scopes ;;;
  _http_post h (url object_list_key) (Some body).

Definition create_task (h : private_helpers) (batch_id : string) (body : json)
    : M pyvalue :=
  let required_scopes := ["write_batches"] in
  check_scopes ("POST /" ++ object_list_key ++ "/:batch_id/tasks")
    required_scopes ;;;
  _http_post h (url object_list_key ++ "/" ++ batch_id ++ "/tasks") (Some body).

Definition get (h : private_helpers) (batch_id : string) : M pyvalue :=
  let required_scopes := ["read_batches"] in
  check_scopes ("GET /" ++ object_list_key ++ "/:batch_id") required_scopes ;;;
  _http_get h (url object_list_key ++ "/" ++ batch_id) None.

Definition list (h : private_helpers) : M pyvalue :=
  let required_scopes := ["read_batches"] in
  check_scopes ("GET /" ++ object_list_key) required_scopes ;;;
  _http_get h (url object_list_key) None.

Definition list_tasks (h : private_helpers) (batch_id : string) : M pyvalue :=
  let required_scopes := ["read_batches"] in
  check_scopes ("GET /" ++ object_list_key ++ "/:batch_id/tasks")
    required_scopes ;;;
  _http_get h (url object_list_key ++ "/" ++ batch_id ++ "/tasks") None.

Definition process (h : private_helpers) (batch_id : string) : M pyvalue :=
  let required_scopes := ["write_batches"] in
  check_scopes ("POST /" ++ object_list_key ++ "/:batch_id/process")
    required_scopes ;;;
  _http_post h (url object_list_key ++ "/" ++ batch_id ++ "/process") None.

End AsyncBatchResource.

(** ** Every public method, as one type *)

Inductive method : Type :=
| Address_create (customer_id : string) (body : json)
| Address_get (address_id : string)
| Address_update (address_id : string) (body : option json)
| Address_delete (address_id : string)
| Address_list (customer_id : string) (query : option query_params)
| Address_count (query : option query_params)
| Address_validate (body : json)
| Address_apply_discount (address_id : string) (body : json)
| Address_remove_discount (address_id : string)
| Product_create (body : json)
| Product_get (product_id : string)
| Product_update (product_id : string) (body : json)
| Product_delete (product_id : string)
| Product_list (query : query_params)
| Product_count
| Discount_create (body : json)
| Discount_get (discount_id : string)
| Discount_update (discount_id : string) (body : json)
| Discount_delete (discount_id : string)
| Discount_list (query : option query_params)
| AsyncBatch_create (body : json)
| AsyncBatch_create_task (batch_id : string) (body : json)
| AsyncBatch_get (batch_id : string)
| AsyncBatch_list
| AsyncBatch_list_tasks (batch_id : string)
| AsyncBatch_process (batch_id : string).

Definition call (srv : server) (fuel : nat) (h : private_helpers) (m : method)
    : M pyvalue :=
  match m with
  | Address_create c b => AddressResource.create srv fuel c b
  | Address_get a => AddressResource.get srv fuel a
  | Address_update a b => AddressResource.update srv fuel a b
  | Address_delete a => AddressResource.delete srv fuel a
  | Address_list c q => AddressResource.list srv fuel c q
  | Address_count q => AddressResource.count srv fuel q
  | Address_validate b => AddressResource.validate srv fuel b
  | Address_apply_discount a b => AddressResource.apply_discount srv fuel a b
  | Address_remove_discount a => AddressResource.remove_discount srv fuel a
  | Product_create b => ProductResource.create srv fuel b
  | Product_get p => ProductResource.get srv fuel p
  | Product_update p b => ProductResource.update srv fuel p b
  | Product_delete p => ProductResource.delete srv fuel p
  | Product_list q => ProductResource.list srv fuel q
  | Product_count => ProductResource.count srv fuel
  | Discount_create b => DiscountResource.create h b
  | Discount_get d => DiscountResource.get h d
  | Discount_update d b => DiscountResource.update h d b
  | Discount_delete d => DiscountResource.delete h d
  | Discount_list q => DiscountResource.list h q
  | AsyncBatch_create b => AsyncBatchResource.create h b
  | AsyncBatch_create_task i b => AsyncBatchResource.create_task h i b
  | AsyncBatch_get i => AsyncBatchResource.get h i
  | AsyncBatch_list => AsyncBatchResource.list h
  | AsyncBatch_list_tasks i => AsyncBatchResource.list_tasks h i
  | AsyncBatch_process i => AsyncBatchResource.process h i
  end.

(** The endpoint name and the [required_scopes] a method hands to
    [check_scopes]; [None] for the one method whose body has no such call. *)
Definition declared (m : method) : option (string * list TokenScope) :=
  match m with
  | Address_create _ _ =>
      Some ("POST /customers/:customer_id/addresses", ["write_customers"])
  | Address_get _ => Some ("GET addresses/:address_id", ["read_customers"])
  | Address_update _ _ => Some ("PUT addresses/:id", ["write_customers"])
  | Address_delete _ => Some ("DELETE addresses/:address_id", ["write_customers"])
  | Address_list _ _ =>
      Some ("GET /customers/:customer_id/addresses", ["read_customers"])
  | Address_count _ => Some ("GET /addresses/count", ["read_customers"])
  | Address_validate _ => None
  | Address_apply_discount _ _ =>
      Some ("POST /addresses/:address_id/apply_discount", ["write_discounts"])
  | Address_remove_discount _ =>
      Some ("POST /addresses/:address_id/remove_discount", ["write_discounts"])
  | Product_create _ => Some ("POST /products", ["write_products"])
  | Product_get p => Some ("GET /products/" ++ p, ["read_products"])
  | Product_update p _ => Some ("PUT /products/" ++ p, ["write_products"])
  | Product_delete p => Some ("DELETE /products/" ++ p, ["write_products"])
  | Product_list _ => Some ("GET /products", ["read_products"])
  | Product_count => Some ("GET /products/count", ["read_products"])
  | Discount_create _ => Some ("POST /discounts", ["write_discounts"])
  | Discount_get _ => Some ("GET /discounts/:discount_id", ["read_discounts"])
  | Discount_update _ _ => Some ("PUT /discounts/:discount_id", ["write_discounts"])
  | Discount_delete _ => Some ("DELETE /discounts/:discount_id", ["write_discounts"])
  | Discount_list _ => Some ("GET /discounts", ["read_discounts"])
  | AsyncBatch_create _ => Some ("POST /async_batches", ["write_batches"])
  | AsyncBatch_create_task _ _ =>
      Some ("POST /async_batches/:batch_id/tasks", ["write_batches"])
  | AsyncBatch_get _ => Some ("GET /async_batches/:batch_id", ["read_batches"])
  | AsyncBatch_list => Some ("GET /async_batches", ["read_batches"])
  | AsyncBatch_list_tasks _ =>
      Some ("GET /async_batches/:batch_id/tasks", ["read_batches"])
  | AsyncBatch_process _ =>
      Some ("POST /async_batches/:batch_id/process", ["write_batches"])
  end.

(** The public helper a method of [AddressResource] or [ProductResource]
    ends in, with the arguments it passes: verb, URL, body, query.  [None]
    for the methods of the v2 classes, which end in a private helper. *)
Definition public_request (m : method)
    : option (verb * string * option json * option query_params) :=
  let addresses := url AddressResource.object_list_key in
  let products := url ProductResource.object_list_key in
  match m with
  | Address_create c b =>
      Some (POST, base_url ++ "/customers/" ++ c ++ "/addresses", Some b, None)
  | Address_get a => Some (GET, addresses ++ "/" ++ a, None, None)
  | Address_update a b => Some (PUT, addresses ++ "/" ++ a, b, None)
  | Address_delete a => Some (DELETE, addresses ++ "/" ++ a, None, None)
  | Address_list c q =>
      Some (GET, base_url ++ "/customers/" ++ c ++ "/addresses", None, q)
  | Address_count q => Some (GET, addresses ++ "/count", None, q)
  | Address_validate b => Some (POST, addresses ++ "/validate_address", Some b, None)
  | Address_apply_discount a b =>
      Some (POST, addresses ++ "/" ++ a ++ "/apply_discount", Some b, None)
  | Address_remove_discount a =>
      Some (POST, addresses ++ "/" ++ a ++ "/remove_discount", None, None)
  | Product_create b => Some (POST, products, Some b, None)
  | Product_get p => Some (GET, products ++ "/" ++ p, None, None)
  | Product_update p b => Some (PUT, products ++ "/" ++ p, Some b, None)
  | Product_delete p => Some (DELETE, products ++ "/" ++ p, None, None)
  | Product_list q => Some (GET, products, None, Some q)
  | Product_count => Some (GET, products ++ "/count", None, None)
  | _ => None
  end.

(** ** Reading a trace *)

Definition requests_of (tr : list event) : list request :=
  flat_map (fun e => match e with Sent rq => [rq] | _ => [] end) tr.

Definition sleeps_of (tr : list event) : list Z :=
  flat_map (fun e => match e with Slept s => [s] | _ => [] end) tr.

Definition is_logged (e : event) : Prop :=
  match e with Logged _ => True | _ => False end.

(** The events a computation added to the trace. *)
Definition emitted (st st' : state) : list event :=
  skipn (List.length (trace st)) (trace st').

(** ** The four helpers as one loop

    [perform v] is the helper for verb [v]: the four definitions above differ
    in which arguments reach the request, in whether the limit header is
    logged unconditionally, in the pause before the retry, and in what is
    returned. *)

Definition logs_limit (v : verb) (this : RechargeResource) : bool :=
  match v with
  | DELETE => true
  | _ => debug this
  end.

Definition pause (v : verb) : list event :=
  match v with
  | DELETE => []
  | _ => [Slept 1]
  end.

Definition retried_body (v : verb) (body : option json) : option json :=
  match v with
  | DELETE => None
  | _ => body
  end.

Definition result_of (v : verb) (resp : response) : outcome pyvalue :=
  match v with
  | DELETE => Ret (RawResponse resp)
  | _ =>
      match json_body resp with
      | Some j => Ret (Parsed j)
      | None => Raise JSONDecodeError
      end
  end.

Definition perform (srv : server) (fuel : nat) (v : verb) (url : string)
    (body : option json) (query : option query_params) : M pyvalue :=
  match v with
  | DELETE => http_delete srv fuel url body
  | GET => http_get srv fuel url query
  | PUT => http_put srv fuel url body query
  | POST => http_post srv fuel url body query
  end.

(** The request a helper issues first, and the one it issues on a retry. *)
Definition first_request (v : verb) (url : string) (body : option json)
    (query : option query_params) (this : RechargeResource) : request :=
  mk_request v url
    (match v with DELETE => None | _ => query end)
    (match v with GET => None | _ => body end)
    (headers this).

Definition retry_request (v : verb) (url : string) (body : option json)
    (this : RechargeResource) : request :=
  first_request v url (retried_body v body) None this.

(** The log lines one response causes, and whether the header lookup
    succeeded. *)
Definition logging (v : verb) (this : RechargeResource) (url : string)
    (resp : response) : list event * bool :=
  if logs_limit v this then
    match recharge_limit resp with
    | Some limit => ([Logged url; Logged limit], true)
    | None => ([Logged url], false)
    end
  else ([], true).

Definition loggable (v : verb) (this : RechargeResource) (resp : response) : bool :=
  snd (logging v this "" resp).

Definition after_send (st : state) (rq : request) : state :=
  mk_state (self st) (S (served st)) (trace st ++ [Sent rq]).

Definition add (st : state) (evs : list event) : state :=
  mk_state (self st) (served st) (trace st ++ evs).

(** The shape of what one helper call adds to the trace: nothing (no fuel),
    or a request and its log lines, possibly followed by the pause and the
    events of the retry. *)
Inductive attempts (p : list event) (retry : request)
    : request -> list event -> Prop :=
| attempts_none rq : attempts p retry rq []
| attempts_last rq logs :
    Forall is_logged logs -> attempts p retry rq (Sent rq :: logs)
| attempts_more rq logs rest :
    Forall is_logged logs ->
    attempts p retry retry rest ->
    attempts p retry rq (Sent rq :: logs ++ p ++ rest).


(** The scopes of [required] that the token does not hold, in order. *)
Definition lacking (this : RechargeResource) (required : list TokenScope)
    : list TokenScope :=
  filter (fun s => negb (py_in s (or_empty (scopes this)))) required.

(** The state after [endpoint] has been approved. *)
Definition approve (endpoint : string) (st : state) : state :=
  mk_state
    (mk_resource (access_token (self st)) (debug (self st)) (scopes (self st))
       (allowed_endpoints (self st) ++ [endpoint]))
    (served st) (trace st).

(** A token's scopes replaced, everything else kept. *)
Definition with_scopes (sc : option (list TokenScope)) (st : state) : state :=
  mk_state
    (mk_resource (access_token (self st)) (debug (self st)) sc
       (allowed_endpoints (self st)))
    (served st) (trace st).

(** [later st st']: [st'] is reached from [st] by calls of [check_scopes] and
    of the public helpers, with any arguments, against any server and
    whatever their outcome. *)
Inductive later : state -> state -> Prop :=
| later_now st : later st st
| later_check st st' endpoint required :
    later st st' -> later st (snd (check_scopes endpoint required st'))
| later_http st st' srv fuel v url body query :
    later st st' -> later st (snd (perform srv fuel v url body query st')).

(** The scope check of method [m] passes in [st] (vacuously when the method
    has none). *)
Definition admitted (m : method) (st : state) : Prop :=
  match declared m with
  | Some (endpoint, required) => fst (check_scopes endpoint required st) = Ret tt
  | None => True
  end.

(** ** Sample clients and servers *)

(** A resource that has served nothing yet. *)
Definition fresh (r : RechargeResource) : state := mk_state r 0 [].

Definition too_many_requests : response :=
  mk_response 429 (Some "40/40") None.

Definition ok_response : response :=
  mk_response 200 (Some "1/40") (Some (JDict [("ok", JBool true)])).

Definition server_error : response :=
  mk_response 500 (Some "1/40") (Some (JDict [("error", JStr "boom")])).

(** Answers 429 to the first [n] requests and 200 from then on. *)
Definition limited (n : nat) : server :=
  fun k _ => if Nat.ltb k n then Answer too_many_requests else Answer ok_response.

Definition always (r : response) : server := fun _ _ => Answer r.

(** The public helpers standing in for the private ones. *)
Definition public_as_private (srv : server) (fuel : nat) : private_helpers :=
  mk_private_helpers
    (fun url => http_delete srv fuel url None)
    (fun url query => http_get srv fuel url query)
    (fun url body => http_put srv fuel url body None)
    (fun url body => http_post srv fuel url body None).

Definition reader : RechargeResource :=
  __init__ (Some "token") false (Some ["read_products"; "read_customers"]).

Definition writer : RechargeResource :=
  __init__ (Some "token") true (Some ["write_customers"; "write_products"]).

Definition unscoped : RechargeResource := __init__ (Some "token") false None.

Definition page_two : query_params := [("page", JInt 2)].

(** ** Further readings of a run *)

(** The lines given to [log.info]. *)
Definition logs_of (tr : list event) : list string :=
  flat_map (fun e => match e with Logged line => [line] | _ => [] end) tr.

(** The request a helper call issues as its [i]-th: the first one, then the
    retried one. *)
Definition nth_request (v : verb) (url : string) (body : option json)
    (query : option query_params) (this : RechargeResource) (i : nat) : request :=
  match i with
  | O => first_request v url body query this
  | S _ => retry_request v url body this
  end.

(** Private helpers that leave the resource object as it is. *)
Definition keeps_self (h : private_helpers) : Prop :=
  (forall url st, self (snd (_http_delete h url st)) = self st) /\
  (forall url query st, self (snd (_http_get h url query st)) = self st) /\
  (forall url body st, self (snd (_http_put h url body st)) = self st) /\
  (forall url body st, self (snd (_http_post h url body st)) = self st).

(** [used r st]: [st] is reached from the resource [r], as constructed, by
    calls of the methods that the four resource classes define and of the
    four HTTP helpers, against any servers.  Calls of the inherited
    [check_scopes] made from outside those methods are not among the steps,
    nor are assignments to the attributes of the resource. *)
Inductive used (r : RechargeResource) : state -> Prop :=
| used_fresh : used r (fresh r)
| used_call st srv fuel h m :
    used r st -> keeps_self h -> used r (snd (call srv fuel h m st))
| used_http st srv fuel v url body query :
    used r st -> used r (snd (perform srv fuel v url body query st)).

(** The server answers the first [n] requests that a helper call started in
    [st] issues with a 429 whose limit header can be logged. *)
Definition limited_on_call (srv : server) (v : verb) (url : string)
    (body : option json) (query : option query_params) (st : state)
    (n : nat) : Prop :=
  forall i, i < n ->
    exists r,
      srv (served st + i) (nth_request v url body query (self st) i) = Answer r /\
      status_code r = 429%Z /\
      loggable v (self st) r = true.

(** The private helper call a method of the v2 classes ends in; [None] for
    the methods of [AddressResource] and [ProductResource]. *)
Definition private_request (h : private_helpers) (m : method)
    : option (M pyvalue) :=
  let discounts := url DiscountResource.object_list_key in
  let batches := url AsyncBatchResource.object_list_key in
  match m with
  | Discount_create b => Some (_http_post h discounts (Some b))
  | Discount_get d => Some (_http_get h (discounts ++ "/" ++ d) None)
  | Discount_update d b => Some (_http_put h (discounts ++ "/" ++ d) (Some b))
  | Discount_delete d => Some (_http_delete h (discounts ++ "/" ++ d))
  | Discount_list q => Some (_http_get h discounts q)
  | AsyncBatch_create b => Some (_http_post h batches (Some b))
  | AsyncBatch_create_task i b =>
      Some (_http_post h (batches ++ "/" ++ i ++ "/tasks") (Some b))
  | AsyncBatch_get i => Some (_http_get h (batches ++ "/" ++ i) None)
  | AsyncBatch_list => Some (_http_get h batches None)
  | AsyncBatch_list_tasks i =>
      Some (_http_get h (batches ++ "/" ++ i ++ "/tasks") None)
  | AsyncBatch_process i =>
      Some (_http_post h (batches ++ "/" ++ i ++ "/process") None)
  | _ => None
  end.

(** * Properties *)

(** ** The monad and the built-ins *)

Lemma py_in_In (x : string) (l : list string) : py_in x l = true <-> In x l.
Proof.
  induction l as [|y l IH]; simpl.
  - split; [discriminate | tauto].
  - destruct (String.eqb_spec x y) as [->|Hne].
    + split; auto.
    + rewrite IH. split; [auto | intros [E|H]; [congruence | exact H]].
Qed.

Lemma py_in_app (x : string) (l1 l2 : list string) :
  py_in x (l1 ++ l2)%list = py_in x l1 || py_in x l2.
Proof.
  induction l1 as [|y l1 IH]; simpl; [reflexivity|].
  destruct (String.eqb x y); [reflexivity | exact IH].
Qed.

Lemma collect_missing_filter (token required acc : list TokenScope) :
  collect_missing token required acc =
  (acc ++ filter (fun s => negb (py_in s token)) required)%list.
Proof.
  revert acc. induction required as [|s rest IH]; intros acc; simpl.
  - now rewrite app_nil_r.
  - rewrite IH. destruct (py_in s token); simpl; [reflexivity|].
    now rewrite <- app_assoc.
Qed.

Lemma prefix_append (s t : string) : prefix s (s ++ t) = true.
Proof.
  induction s as [|c s IH]; simpl.
  - now destruct t.
  - destruct (Ascii.ascii_dec c c); [exact IH | congruence].
Qed.

Lemma py_contains_unfold (needle hay : string) :
  py_contains needle hay =
  prefix needle hay ||
  match hay with
  | EmptyString => false
  | String _ hay' => py_contains needle hay'
  end.
Proof. destruct hay; reflexivity. Qed.

Lemma py_contains_append (s pre post : string) :
  py_contains s (pre ++ s ++ post) = true.
Proof.
  induction pre as [|c pre IH]; simpl.
  - rewrite py_contains_unfold, prefix_append. reflexivity.
  - rewrite IH. apply orb_true_r.
Qed.

Lemma append_assoc (a b c : string) : ((a ++ b) ++ c)%string = (a ++ b ++ c)%string.
Proof. induction a as [|x a IH]; simpl; [reflexivity | now rewrite IH]. Qed.

Lemma append_nil_r (a : string) : (a ++ "")%string = a.
Proof. induction a as [|x a IH]; simpl; [reflexivity | now rewrite IH]. Qed.

Lemma concat_splits (sep x : string) (l : list string) :
  In x l -> exists pre post, String.concat sep l = (pre ++ x ++ post)%string.
Proof.
  induction l as [|y l IH]; simpl; [tauto|].
  intros [->|Hin].
  - destruct l as [|z l].
    + exists "", "". simpl. now rewrite append_nil_r.
    + exists "", (sep ++ String.concat sep (z :: l))%string. reflexivity.
  - destruct (IH Hin) as (pre & post & E). destruct l as [|z l]; [destruct Hin|].
    exists (y ++ sep ++ pre)%string, post. rewrite E.
    now rewrite !append_assoc.
Qed.

(** Each scope of the list is quoted somewhere in the printed list. *)
Lemma py_repr_list_mentions (l : list string) (s : string) :
  In s l -> py_contains (py_repr_str s) (py_repr_list l) = true.
Proof.
  intros Hin. unfold py_repr_list.
  destruct (concat_splits ", " (py_repr_str s) (map py_repr_str l))
    as (pre & post & E); [now apply in_map|].
  rewrite E.
  replace ("[" ++ (pre ++ py_repr_str s ++ post) ++ "]")%string
    with (("[" ++ pre) ++ py_repr_str s ++ (post ++ "]"))%string
    by now rewrite !append_assoc.
  apply py_contains_append.
Qed.

Lemma py_contains_suffix (x a b : string) :
  py_contains x b = true -> py_contains x (a ++ b) = true.
Proof.
  intros H. induction a as [|c a IH]; simpl; [exact H|].
  rewrite IH. apply orb_true_r.
Qed.

(** ** check_scopes, case by case *)

Lemma check_scopes_cached (endpoint : string) (required : list TokenScope)
    (st : state) :
  py_in endpoint (allowed_endpoints (self st)) = true ->
  check_scopes endpoint required st = (Ret tt, st).
Proof.
  intros H. unfold check_scopes, bind, get_self. rewrite H. reflexivity.
Qed.

Lemma check_scopes_no_scopes (endpoint : string) (required : list TokenScope)
    (st : state) :
  py_in endpoint (allowed_endpoints (self st)) = false ->
  truthy (scopes (self st)) = false ->
  check_scopes endpoint required st = (Raise (ValueError no_scopes_message), st).
Proof.
  intros H1 H2. unfold check_scopes, bind, get_self. rewrite H1, H2. reflexivity.
Qed.

Lemma check_scopes_missing (endpoint : string) (required : list TokenScope)
    (st : state) :
  py_in endpoint (allowed_endpoints (self st)) = false ->
  truthy (scopes (self st)) = true ->
  lacking (self st) required <> [] ->
  check_scopes endpoint required st =
  (Raise (ValueError
            (missing_scopes_message endpoint (lacking (self st) required))), st).
Proof.
  intros H1 H2 H3. unfold check_scopes, bind, get_self. rewrite H1, H2. simpl.
  rewrite collect_missing_filter. simpl. fold (lacking (self st) required).
  destruct (lacking (self st) required); [congruence | reflexivity].
Qed.

Lemma check_scopes_granted (endpoint : string) (required : list TokenScope)
    (st : state) :
  py_in endpoint (allowed_endpoints (self st)) = false ->
  truthy (scopes (self st)) = true ->
  lacking (self st) required = [] ->
  check_scopes endpoint required st = (Ret tt, approve endpoint st).
Proof.
  intros H1 H2 H3. unfold check_scopes, bind, get_self. rewrite H1, H2. simpl.
  rewrite collect_missing_filter. simpl. fold (lacking (self st) required).
  rewrite H3. reflexivity.
Qed.

(** The four cases are all there is. *)
Lemma check_scopes_cases (endpoint : string) (required : list TokenScope)
    (st : state) :
  (py_in endpoint (allowed_endpoints (self st)) = true /\
   check_scopes endpoint required st = (Ret tt, st)) \/
  (py_in endpoint (allowed_endpoints (self st)) = false /\
   check_scopes endpoint required st = (Ret tt, approve endpoint st)) \/
  (py_in endpoint (allowed_endpoints (self st)) = false /\
   exists msg, check_scopes endpoint required st = (Raise (ValueError msg), st)).
Proof.
  destruct (py_in endpoint (allowed_endpoints (self st))) eqn:H1.
  - left. split; [reflexivity | now apply check_scopes_cached].
  - right. destruct (truthy (scopes (self st))) eqn:H2.
    + destruct (lacking (self st) required) eqn:H3.
      * left. split; [reflexivity | now apply check_scopes_granted].
      * right. split; [reflexivity|]. eexists.
        rewrite check_scopes_missing; [rewrite H3; reflexivity | | |]; congruence.
    + right. split; [reflexivity|]. eexists. now apply check_scopes_no_scopes.
Qed.

Lemma check_scopes_raise_unchanged (endpoint : string)
    (required : list TokenScope) (st st' : state) (e : exn) :
  check_scopes endpoint required st = (Raise e, st') -> st' = st.
Proof.
  intros H.
  destruct (check_scopes_cases endpoint required st)
    as [[_ E]|[[_ E]|[_ [msg E]]]]; rewrite E in H; congruence.
Qed.

Lemma check_scopes_has_fuel (endpoint : string) (required : list TokenScope)
    (st st' : state) :
  check_scopes endpoint required st <> (OutOfFuel, st').
Proof.
  destruct (check_scopes_cases endpoint required st)
    as [[_ E]|[[_ E]|[_ [msg E]]]]; rewrite E; congruence.
Qed.

Lemma check_scopes_approves (endpoint : string) (required : list TokenScope)
    (st st' : state) :
  check_scopes endpoint required st = (Ret tt, st') ->
  py_in endpoint (allowed_endpoints (self st')) = true.
Proof.
  intros H.
  destruct (check_scopes_cases endpoint required st)
    as [[C E]|[[_ E]|[_ [msg E]]]]; rewrite E in H; inversion H; subst.
  - exact C.
  - simpl. rewrite py_in_app. simpl. rewrite String.eqb_refl.
    apply orb_true_r.
Qed.

(** No call of [check_scopes] takes an endpoint out of the list. *)
Lemma check_scopes_keeps (endpoint : string) (required : list TokenScope)
    (st : state) (e : string) :
  py_in e (allowed_endpoints (self st)) = true ->
  py_in e (allowed_endpoints (self (snd (check_scopes endpoint required st)))) = true.
Proof.
  intros H.
  destruct (check_scopes_cases endpoint required st)
    as [[_ E]|[[_ E]|[_ [msg E]]]]; rewrite E; simpl; auto.
  rewrite py_in_app, H. reflexivity.
Qed.

(** ** One turn of a helper *)

(** [perform] is the source's helper for each verb, argument for argument. *)
Lemma perform_helpers (srv : server) (fuel : nat) (url : string)
    (body : option json) (query : option query_params) :
  perform srv fuel DELETE url body query = http_delete srv fuel url body /\
  perform srv fuel GET url body query = http_get srv fuel url query /\
  perform srv fuel PUT url body query = http_put srv fuel url body query /\
  perform srv fuel POST url body query = http_post srv fuel url body query.
Proof. repeat split. Qed.

Lemma perform_O (srv : server) (v : verb) (url : string) (body : option json)
    (query : option query_params) (st : state) :
  perform srv 0 v url body query st = (OutOfFuel, st).
Proof. destruct v; reflexivity. Qed.

Lemma perform_S (srv : server) (fuel : nat) (v : verb) (url : string)
    (body : option json) (query : option query_params) (st : state) :
  perform srv (S fuel) v url body query st =
  let rq := first_request v url body query (self st) in
  let st1 := after_send st rq in
  match srv (served st) rq with
  | Failure msg => (Raise (RequestException msg), st1)
  | Answer resp =>
      match logging v (self st) url resp with
      | (logs, false) => (Raise (KeyError "x-recharge-limit"), add st1 logs)
      | (logs, true) =>
          if (status_code resp =? 429)%Z then
            perform srv fuel v url (retried_body v body) None
              (add st1 (logs ++ pause v))
          else (result_of v resp, add st1 logs)
      end
  end.
Proof.
  destruct st as [this n tr]; destruct v;
  cbv beta iota zeta delta [perform http_get http_put http_post http_delete
    bind requests_call log limit_header log_info sleep emit get_self
    response_json ret raise self served trace logging first_request after_send
    add logs_limit pause retried_body result_of];
  (destruct (srv n _) as [resp|msg]; [|reflexivity]);
  try destruct (debug this);
  cbv beta iota zeta;
  try destruct (recharge_limit resp);
  cbv beta iota zeta;
  try destruct (status_code resp =? 429)%Z;
  try destruct (json_body resp);
  rewrite <- ?app_assoc, ?app_nil_r; reflexivity.
Qed.

Lemma logging_only_logs (v : verb) (this : RechargeResource) (url : string)
    (resp : response) :
  Forall is_logged (fst (logging v this url resp)) /\
  requests_of (fst (logging v this url resp)) = [] /\
  sleeps_of (fst (logging v this url resp)) = [].
Proof.
  unfold logging. destruct (logs_limit v this); [destruct (recharge_limit resp)|];
    simpl; repeat split; repeat constructor.
Qed.

Lemma logging_loggable (v : verb) (this : RechargeResource) (url : string)
    (resp : response) :
  snd (logging v this url resp) = loggable v this resp.
Proof.
  unfold loggable, logging.
  destruct (logs_limit v this); [destruct (recharge_limit resp)|]; reflexivity.
Qed.

Lemma retry_request_again (v : verb) (url : string) (body : option json)
    (this : RechargeResource) :
  retry_request v url (retried_body v body) this = retry_request v url body this.
Proof. destruct v; reflexivity. Qed.

Lemma requests_of_app (a b : list event) :
  requests_of (a ++ b) = (requests_of a ++ requests_of b)%list.
Proof. apply flat_map_app. Qed.

Lemma sleeps_of_app (a b : list event) :
  sleeps_of (a ++ b) = (sleeps_of a ++ sleeps_of b)%list.
Proof. apply flat_map_app. Qed.

(** ** What any helper call adds to the trace *)

Lemma perform_trace (srv : server) (fuel : nat) :
  forall (v : verb) (url : string) (body : option json)
         (query : option query_params) (st : state),
    self (snd (perform srv fuel v url body query st)) = self st /\
    exists new,
      trace (snd (perform srv fuel v url body query st)) = (trace st ++ new)%list /\
      attempts (pause v) (retry_request v url body (self st))
        (first_request v url body query (self st)) new.
Proof.
  induction fuel as [|fuel IH]; intros v url body query st.
  - rewrite perform_O. simpl. split; [reflexivity|].
    exists []. rewrite app_nil_r. split; [reflexivity | constructor].
  - rewrite perform_S. cbv zeta.
    set (rq := first_request v url body query (self st)).
    destruct (srv (served st) rq) as [resp|msg].
    + destruct (logging_only_logs v (self st) url resp) as (Hlogs & _ & _).
      destruct (logging v (self st) url resp) as [logs [|]] eqn:El; simpl in Hlogs.
      * destruct (status_code resp =? 429)%Z.
        -- specialize (IH v url (retried_body v body) None
                         (add (after_send st rq) (logs ++ pause v))).
           destruct IH as (Hself & new & Htr & Hatt). split; [exact Hself|].
           exists (Sent rq :: logs ++ pause v ++ new)%list. split.
           ++ rewrite Htr. simpl. rewrite <- !app_assoc. reflexivity.
           ++ apply attempts_more; [exact Hlogs|].
              simpl in Hatt. rewrite retry_request_again in Hatt. exact Hatt.
        -- simpl. split; [reflexivity|]. exists (Sent rq :: logs). split.
           ++ now rewrite <- app_assoc.
           ++ now apply attempts_last.
      * simpl. split; [reflexivity|]. exists (Sent rq :: logs). split.
        -- now rewrite <- app_assoc.
        -- now apply attempts_last.
    + simpl. split; [reflexivity|]. exists [Sent rq]. split; [reflexivity|].
      apply attempts_last. constructor.
Qed.

Lemma emitted_app (st st' : state) (new : list event) :
  trace st' = (trace st ++ new)%list -> emitted st st' = new.
Proof.
  intros H. unfold emitted. rewrite H.
  rewrite skipn_app, skipn_all, Nat.sub_diag. reflexivity.
Qed.

Lemma perform_emitted (srv : server) (fuel : nat) (v : verb) (url : string)
    (body : option json) (query : option query_params) (st : state) :
  attempts (pause v) (retry_request v url body (self st))
    (first_request v url body query (self st))
    (emitted st (snd (perform srv fuel v url body query st))).
Proof.
  destruct (perform_trace srv fuel v url body query st) as (_ & new & Htr & Hatt).
  now rewrite (emitted_app _ _ _ Htr).
Qed.

(** ** Reading the shape of a trace *)

Lemma logged_not_sent (logs a b : list event) (rq : request) :
  Forall is_logged logs -> logs <> (a ++ Sent rq :: b)%list.
Proof.
  intros H E. subst logs. apply Forall_app in H as [_ H].
  inversion H as [|x l Hx _]. exact Hx.
Qed.

(** With a pause of one sleep, every request but the first comes right after
    a sleep. *)
Lemma attempts_paused (retry rq : request) (new : list event) :
  attempts [Slept 1] retry rq new ->
  forall pre rq' post,
    new = (pre ++ Sent rq' :: post)%list -> pre <> [] ->
    exists pre', pre = (pre' ++ [Slept 1%Z])%list.
Proof.
  induction 1 as [rq|rq logs Hlogs|rq logs rest Hlogs Hrest IH];
    intros pre rq' post E Hpre.
  - destruct pre; discriminate.
  - destruct pre as [|e pre]; [congruence|]. injection E as _ E.
    now apply logged_not_sent in E.
  - destruct pre as [|e pre]; [congruence|]. injection E as E0 E. subst e.
    apply app_eq_app in E as [l [[E1 E2]|[E1 E2]]].
    + destruct l as [|x l]; [discriminate|]. injection E2 as <- _.
      now apply logged_not_sent in E1.
    + destruct l as [|x l]; [discriminate|]. injection E2 as <- E2.
      subst pre. destruct l as [|y l].
      * now exists (Sent rq :: logs).
      * destruct (IH (y :: l) rq' post E2) as [pre' Hp]; [discriminate|].
        exists (Sent rq :: logs ++ Slept 1 :: pre')%list. rewrite Hp.
        simpl. now rewrite <- app_assoc.
Qed.

Lemma requests_of_logs (logs : list event) :
  Forall is_logged logs -> requests_of logs = [].
Proof.
  induction 1 as [|e l He _ IH]; [reflexivity|].
  destruct e; simpl in *; tauto.
Qed.

(** The requests of a call are the first one followed by copies of the
    retried one. *)
Lemma attempts_requests (p : list event) (retry rq : request)
    (new : list event) :
  requests_of p = [] ->
  attempts p retry rq new ->
  requests_of new = [] \/ exists k, requests_of new = rq :: repeat retry k.
Proof.
  intros Hp. induction 1 as [rq|rq logs Hlogs|rq logs rest Hlogs Hrest IH].
  - now left.
  - right. exists 0. simpl. now rewrite requests_of_logs.
  - right. simpl. rewrite !requests_of_app, Hp, requests_of_logs by assumption.
    simpl. destruct IH as [E|[k E]]; rewrite E.
    + now exists 0.
    + now exists (S k).
Qed.

Lemma attempts_retries (p : list event) (retry rq : request)
    (new : list event) :
  requests_of p = [] ->
  attempts p retry rq new ->
  Forall (fun r => r = retry) (tl (requests_of new)).
Proof.
  intros Hp H. destruct (attempts_requests p retry rq new Hp H) as [E|[k E]];
    rewrite E; simpl; [constructor|].
  apply Forall_forall. intros x Hx. now apply repeat_spec in Hx.
Qed.

Lemma sleeps_of_logs (logs : list event) :
  Forall is_logged logs -> sleeps_of logs = [].
Proof.
  induction 1 as [|e l He _ IH]; [reflexivity|].
  destruct e; simpl in *; tauto.
Qed.

Lemma attempts_no_sleep (p : list event) (retry rq : request)
    (new : list event) :
  sleeps_of p = [] -> attempts p retry rq new -> sleeps_of new = [].
Proof.
  intros Hp. induction 1 as [rq|rq logs Hlogs|rq logs rest Hlogs Hrest IH]; simpl.
  - reflexivity.
  - now apply sleeps_of_logs.
  - rewrite !sleeps_of_app, Hp, IH, sleeps_of_logs by assumption. reflexivity.
Qed.

(** ** Every run that ends *)

(** A helper call that ends, with a value or an exception, has issued
    [k + 1] requests for some [k]: the first [k] were answered with 429, and
    a value handed back comes from the answer to the last one, which was not
    a 429. *)
Lemma perform_finished (srv : server) (fuel : nat) :
  forall (v : verb) (url : string) (body : option json)
         (query : option query_params) (st st' : state) (o : outcome pyvalue),
    perform srv fuel v url body query st = (o, st') ->
    o <> OutOfFuel ->
    exists k new,
      trace st' = (trace st ++ new)%list /\
      served st' = served st + S k /\
      requests_of new =
        first_request v url body query (self st)
          :: repeat (retry_request v url body (self st)) k /\
      sleeps_of new = match v with DELETE => [] | _ => repeat 1%Z k end /\
      (forall i, i < k ->
         exists r, srv (served st + i) (nth_request v url body query (self st) i)
                     = Answer r /\ status_code r = 429%Z) /\
      (forall val, o = Ret val ->
         exists r, srv (served st + k) (nth_request v url body query (self st) k)
                     = Answer r /\
                   status_code r <> 429%Z /\ result_of v r = Ret val).
Proof.
  induction fuel as [|fuel IH]; intros v url body query st st' o Hrun Hend.
  - rewrite perform_O in Hrun. congruence.
  - rewrite perform_S in Hrun. cbv zeta in Hrun.
    set (rq := first_request v url body query (self st)) in *.
    destruct (srv (served st) rq) as [resp|msg] eqn:Hsrv.
    + destruct (logging_only_logs v (self st) url resp) as (_ & Hrq & Hsl).
      destruct (logging v (self st) url resp) as [logs [|]]; simpl in Hrq, Hsl.
      * destruct (status_code resp =? 429)%Z eqn:Hst.
        -- apply IH in Hrun; [|exact Hend].
           destruct Hrun as (k & new & Htr & Hserved & Hreqs & Hsleeps & Hlim & Hret).
           simpl in Htr, Hserved, Hreqs, Hlim, Hret.
           exists (S k), (Sent rq :: logs ++ pause v ++ new)%list.
           split; [rewrite Htr, <- !app_assoc; reflexivity|].
           split; [rewrite Hserved; lia|].
           split.
           { simpl. rewrite !requests_of_app, Hrq, Hreqs.
             replace (requests_of (pause v)) with (@nil request) by now destruct v.
             simpl. unfold retry_request at 2. now rewrite retry_request_again. }
           split.
           { simpl. rewrite !sleeps_of_app, Hsl, Hsleeps. now destruct v. }
           split.
           { intros [|i] Hi.
             - exists resp. rewrite Nat.add_0_r. split; [exact Hsrv|].
               now apply Z.eqb_eq.
             - destruct (Hlim i) as (r & Hr & H429); [lia|]. exists r.
               split; [|exact H429]. rewrite <- Hr. simpl.
               replace (served st + S i) with (S (served st + i)) by lia.
               f_equal. destruct i; cbn [nth_request]; [reflexivity|].
               now rewrite retry_request_again. }
           { intros val Hval. destruct (Hret val Hval) as (r & Hr & Hne & Hres).
             exists r. split; [|split]; trivial.
             rewrite <- Hr. simpl.
             replace (served st + S k) with (S (served st + k)) by lia.
             f_equal. destruct k; cbn [nth_request]; [reflexivity|].
             now rewrite retry_request_again. }
        -- injection Hrun as <- <-. exists 0, (Sent rq :: logs). simpl.
           split; [now rewrite <- app_assoc|]. split; [lia|].
           split; [now rewrite Hrq|]. split; [rewrite Hsl; now destruct v|].
           split; [intros i Hi; lia|].
           intros val Hval. exists resp. rewrite Nat.add_0_r.
           split; [exact Hsrv|]. split; [now apply Z.eqb_neq | exact Hval].
      * injection Hrun as <- <-. exists 0, (Sent rq :: logs). simpl.
        split; [now rewrite <- app_assoc|]. split; [lia|].
        split; [now rewrite Hrq|]. split; [rewrite Hsl; now destruct v|].
        split; [intros i Hi; lia | discriminate].
    + injection Hrun as <- <-. exists 0, [Sent rq]. simpl.
      split; [reflexivity|]. split; [lia|]. split; [reflexivity|].
      split; [now destruct v|]. split; [intros i Hi; lia | discriminate].
Qed.

(** ** A server that rate-limits the requests of one call *)

Lemma first_request_token (v : verb) (url : string) (body : option json)
    (query : option query_params) (a b : RechargeResource) :
  access_token a = access_token b ->
  first_request v url body query a = first_request v url body query b.
Proof. intros H. unfold first_request, headers. now rewrite H. Qed.

Lemma nth_request_token (v : verb) (url : string) (body : option json)
    (query : option query_params) (a b : RechargeResource) (i : nat) :
  access_token a = access_token b ->
  nth_request v url body query a i = nth_request v url body query b i.
Proof.
  intros H. destruct i; simpl; unfold retry_request;
    now apply first_request_token.
Qed.

(** After [n] answers of 429 to the requests the call issues, and one answer
    [r] that has another status or cannot be logged, the call has issued
    [n + 1] requests; how it ends is decided by that last answer. *)
Lemma perform_limited_exact (srv : server) (n : nat) :
  forall (fuel : nat) (v : verb) (url : string) (body : option json)
         (query : option query_params) (st : state) (r : response),
    n < fuel ->
    limited_on_call srv v url body query st n ->
    srv (served st + n) (nth_request v url body query (self st) n) = Answer r ->
    status_code r <> 429%Z \/ loggable v (self st) r = false ->
    exists new,
      perform srv fuel v url body query st =
        ((if loggable v (self st) r then result_of v r
          else Raise (KeyError "x-recharge-limit")),
         mk_state (self st) (served st + n + 1) (trace st ++ new)) /\
      requests_of new =
        first_request v url body query (self st)
          :: repeat (retry_request v url body (self st)) n /\
      sleeps_of new = match v with DELETE => [] | _ => repeat 1%Z n end.
Proof.
  induction n as [|n IH]; intros fuel v url body query st r Hfuel Hlim Hans Hst;
    (destruct fuel as [|fuel]; [lia|]); rewrite perform_S; cbv zeta;
    set (rq := first_request v url body query (self st)).
  - rewrite Nat.add_0_r in Hans. simpl in Hans. fold rq in Hans. rewrite Hans.
    destruct (logging_only_logs v (self st) url r) as (_ & Hrq & Hsl).
    pose proof (logging_loggable v (self st) url r) as Hl.
    destruct (logging v (self st) url r) as [logs ok]. simpl in Hrq, Hsl, Hl.
    subst ok. exists (Sent rq :: logs).
    split; [|split].
    + destruct (loggable v (self st) r) eqn:Hlg.
      * destruct Hst as [Hst|Hst]; [|congruence].
        apply Z.eqb_neq in Hst. rewrite Hst. unfold add, after_send. simpl.
        rewrite <- app_assoc. repeat f_equal. lia.
      * unfold add, after_send. simpl. rewrite <- app_assoc.
        repeat f_equal. lia.
    + simpl. now rewrite Hrq.
    + simpl. rewrite Hsl. now destruct v.
  - destruct (Hlim 0) as (r0 & Hr0 & H429 & Hlog0); [lia|].
    rewrite Nat.add_0_r in Hr0. simpl in Hr0. fold rq in Hr0. rewrite Hr0.
    destruct (logging_only_logs v (self st) url r0) as (_ & Hrq & Hsl).
    pose proof (logging_loggable v (self st) url r0) as Hl. rewrite Hlog0 in Hl.
    destruct (logging v (self st) url r0) as [logs ok]. simpl in Hrq, Hsl, Hl.
    subst ok. rewrite H429. cbn [Z.eqb Pos.eqb].
    destruct (IH fuel v url (retried_body v body) None
                (add (after_send st rq) (logs ++ pause v)) r)
      as (new & Hrun & Hreqs & Hsleeps).
    + lia.
    + intros i Hi. destruct (Hlim (S i)) as (x & Hx & Hx'); [lia|].
      exists x. split; [|exact Hx']. rewrite <- Hx. simpl.
      replace (served st + S i) with (S (served st + i)) by lia.
      f_equal. destruct i; cbn [nth_request]; [reflexivity|].
      apply retry_request_again.
    + rewrite <- Hans. simpl.
      replace (served st + S n) with (S (served st + n)) by lia.
      f_equal. destruct n; cbn [nth_request]; [reflexivity|].
      apply retry_request_again.
    + exact Hst.
    + exists (Sent rq :: logs ++ pause v ++ new)%list. split; [|split].
      * rewrite Hrun. simpl. rewrite <- !app_assoc. simpl.
        repeat f_equal. lia.
      * simpl. rewrite !requests_of_app, Hrq, Hreqs. simpl.
        replace (requests_of (pause v)) with (@nil request) by now destruct v.
        simpl. rewrite retry_request_again. reflexivity.
      * simpl. rewrite !sleeps_of_app, Hsl, Hsleeps. now destruct v.
Qed.

Lemma limited_on_call_limited (n : nat) (v : verb) (url : string)
    (body : option json) (query : option query_params) (st : state) :
  served st = 0 -> limited_on_call (limited n) v url body query st n.
Proof.
  intros Hs i Hi. exists too_many_requests. rewrite Hs. unfold limited. simpl.
  apply Nat.ltb_lt in Hi. rewrite Hi. repeat split.
  unfold loggable, logging. now destruct (logs_limit v (self st)).
Qed.

(** * The claims *)

(** ** C1 *)

(** C1, as the code has it: [http_get], [http_put] and [http_post] retry
    once per 429 response, each time after [time.sleep(1)], and go on doing
    so for as long as the server answers 429: the number of requests of one
    call is not bounded by two.  A 429 is retried only when the call gets
    past the logging of the response: in debug mode a response without the
    [X-Recharge-Limit] header raises [KeyError] instead.  So, with fuel
    (recursion depth) for [n] retries: when the first [n] requests of a call
    are answered with 429s that can be logged, and the next one with a
    response that has another status or cannot be logged, the call issues
    [n + 1] requests and sleeps [n] times one second; it ends with what the
    last response gives if that can be logged, and with [KeyError] if not. *)
Theorem C1_retries_while_limited (srv : server) (n fuel : nat) (v : verb)
    (url : string) (body : option json) (query : option query_params)
    (st : state) (r : response) :
  v <> DELETE ->
  n < fuel ->
  limited_on_call srv v url body query st n ->
  srv (served st + n) (nth_request v url body query (self st) n) = Answer r ->
  status_code r <> 429%Z \/ loggable v (self st) r = false ->
  let run := perform srv fuel v url body query st in
  requests_of (emitted st (snd run)) =
    first_request v url body query (self st)
      :: repeat (retry_request v url body (self st)) n /\
  List.length (requests_of (emitted st (snd run))) = n + 1 /\
  sleeps_of (emitted st (snd run)) = repeat 1%Z n /\
  (loggable v (self st) r = true ->
   fst run = match json_body r with
             | Some j => Ret (Parsed j)
             | None => Raise JSONDecodeError
             end) /\
  (loggable v (self st) r = false ->
   fst run = Raise (KeyError "x-recharge-limit")).
Proof.
  intros Hv Hfuel Hlim Hans Hend run. subst run.
  destruct (perform_limited_exact srv n fuel v url body query st r
              Hfuel Hlim Hans Hend) as (new & Hrun & Hreqs & Hsleeps).
  rewrite Hrun. simpl. rewrite (emitted_app st _ new) by reflexivity.
  rewrite Hreqs, Hsleeps. simpl. rewrite repeat_length.
  split; [reflexivity|]. split; [lia|]. split; [destruct v; congruence|].
  split; intros ->; [destruct v; reflexivity || congruence | reflexivity].
Qed.

Lemma C1_retries_while_limited_witness :
  let run := http_get (limited 2) 3 "https://api.rechargeapps.com/products"
               (Some page_two) (fresh reader) in
  requests_of (emitted (fresh reader) (snd run)) =
    first_request GET "https://api.rechargeapps.com/products" None
      (Some page_two) reader
      :: repeat (retry_request GET "https://api.rechargeapps.com/products" None
                   reader) 2 /\
  List.length (requests_of (emitted (fresh reader) (snd run))) = 3 /\
  sleeps_of (emitted (fresh reader) (snd run)) = [1%Z; 1%Z] /\
  (loggable GET reader ok_response = true ->
   fst run = Ret (Parsed (JDict [("ok", JBool true)]))) /\
  (loggable GET reader ok_response = false ->
   fst run = Raise (KeyError "x-recharge-limit")).
Proof.
  apply (C1_retries_while_limited (limited 2) 2 3 GET
           "https://api.rechargeapps.com/products" None (Some page_two)
           (fresh reader) ok_response).
  - discriminate.
  - lia.
  - now apply limited_on_call_limited.
  - reflexivity.
  - left. discriminate.
Defined.

(** C1 as stated fails: a server that answers 429 twice gets three requests
    out of one call of [http_get]. *)
Lemma C1_third_request :
  let run := http_get (limited 2) 3 "https://api.rechargeapps.com/products"
               (Some page_two) (fresh reader) in
  fst run = Ret (Parsed (JDict [("ok", JBool true)])) /\
  List.length (requests_of (trace (snd run))) = 3 /\
  ~ List.length (requests_of (trace (snd run))) <= 2.
Proof. vm_compute. repeat split. lia. Qed.

(** ** C3 *)

(** C3, as the code has it: in what a call of [http_get], [http_put] or
    [http_post] adds to the trace, every request but the first comes
    directly after a [time.sleep(1)], whatever the server does; [http_delete]
    never sleeps. *)
Theorem C3_sleep_before_retry (srv : server) (fuel : nat) (v : verb)
    (url : string) (body : option json) (query : option query_params)
    (st : state) :
  let new := emitted st (snd (perform srv fuel v url body query st)) in
  (v <> DELETE ->
   forall pre rq post,
     new = (pre ++ Sent rq :: post)%list -> pre <> [] ->
     exists pre', pre = (pre' ++ [Slept 1%Z])%list) /\
  (v = DELETE -> sleeps_of new = []).
Proof.
  intros new. subst new.
  pose proof (perform_emitted srv fuel v url body query st) as Hatt.
  split.
  - intros Hv. apply attempts_paused with (retry := retry_request v url body (self st))
      (rq := first_request v url body query (self st)).
    destruct v; [congruence | exact Hatt ..].
  - intros ->. now apply attempts_no_sleep in Hatt.
Qed.

Lemma C3_sleep_before_retry_witness :
  exists pre',
    [Sent (first_request PUT "https://api.rechargeapps.com/addresses/7"
             (Some JNull) (Some page_two) reader);
     Slept 1%Z] = (pre' ++ [Slept 1%Z])%list.
Proof.
  apply (proj1 (C3_sleep_before_retry (limited 1) 2 PUT
                  "https://api.rechargeapps.com/addresses/7" (Some JNull)
                  (Some page_two) (fresh reader)))
    with (rq := retry_request PUT "https://api.rechargeapps.com/addresses/7"
                  (Some JNull) reader)
         (post := []).
  - discriminate.
  - reflexivity.
  - discriminate.
Defined.

(** C3 as stated fails for DELETE: [http_delete] re-issues the request at
    once, with no sleep between the two requests. *)
Lemma C3_delete_retries_at_once :
  trace (snd (http_delete (limited 1) 2
                "https://api.rechargeapps.com/addresses/7" None (fresh reader))) =
  [ Sent (first_request DELETE "https://api.rechargeapps.com/addresses/7" None
            None reader);
    Logged "https://api.rechargeapps.com/addresses/7"; Logged "40/40";
    Sent (first_request DELETE "https://api.rechargeapps.com/addresses/7" None
            None reader);
    Logged "https://api.rechargeapps.com/addresses/7"; Logged "1/40" ].
Proof. reflexivity. Qed.

(** ** C7 *)

(** C7: when the first response has a status other than 429, [http_get],
    [http_put] and [http_post] issue that one request only and do not sleep;
    what they hand back is decided by the body alone ([response.json()], or
    the error of [json()] when the body does not parse), and in debug mode
    by the presence of the limit header; the status plays no part. *)
Theorem C7_other_statuses_pass_through (srv : server) (fuel : nat) (v : verb)
    (url : string) (body : option json) (query : option query_params)
    (st : state) (r : response) :
  v <> DELETE ->
  srv (served st) (first_request v url body query (self st)) = Answer r ->
  status_code r <> 429%Z ->
  let run := perform srv (S fuel) v url body query st in
  requests_of (emitted st (snd run)) = [first_request v url body query (self st)] /\
  sleeps_of (emitted st (snd run)) = [] /\
  (loggable v (self st) r = true ->
   fst run = match json_body r with
             | Some j => Ret (Parsed j)
             | None => Raise JSONDecodeError
             end) /\
  (loggable v (self st) r = false -> fst run = Raise (KeyError "x-recharge-limit")).
Proof.
  intros Hv Hr Hst run. subst run. rewrite perform_S. cbv zeta. rewrite Hr.
  destruct (logging_only_logs v (self st) url r) as (_ & Hrq & Hsl).
  pose proof (logging_loggable v (self st) url r) as Hl.
  apply Z.eqb_neq in Hst. rewrite Hst.
  destruct (logging v (self st) url r) as [logs ok]. simpl in Hrq, Hsl, Hl.
  subst ok.
  assert (Hnew : forall o, emitted st
            (snd (o : outcome pyvalue,
                  add (after_send st (first_request v url body query (self st))) logs))
          = Sent (first_request v url body query (self st)) :: logs).
  { intros o. apply emitted_app. simpl. now rewrite <- app_assoc. }
  destruct (loggable v (self st) r); rewrite Hnew; simpl; rewrite Hrq, Hsl;
    repeat split; try discriminate; intros _; destruct v;
    reflexivity || congruence.
Qed.

Lemma C7_other_statuses_pass_through_witness :
  let run := http_post (always server_error) 1
               "https://api.rechargeapps.com/products" (Some JNull)
               (Some page_two) (fresh reader) in
  requests_of (emitted (fresh reader) (snd run)) =
    [first_request POST "https://api.rechargeapps.com/products" (Some JNull)
       (Some page_two) reader] /\
  sleeps_of (emitted (fresh reader) (snd run)) = [] /\
  (loggable POST reader server_error = true ->
   fst run = Ret (Parsed (JDict [("error", JStr "boom")]))) /\
  (loggable POST reader server_error = false ->
   fst run = Raise (KeyError "x-recharge-limit")).
Proof.
  apply (C7_other_statuses_pass_through (always server_error) 0 POST
           "https://api.rechargeapps.com/products" (Some JNull) (Some page_two)
           (fresh reader) server_error).
  - discriminate.
  - reflexivity.
  - discriminate.
Defined.

(** ** C8 *)

(** C8: every request of a helper call after the first is the retried
    request, which carries no query parameters and, for DELETE, no body.
    So a call made with query parameters (or a DELETE made with a body) is
    not repeated as it was.  A first response of 429 that can be logged, with
    fuel left, does lead to that retried request. *)
Theorem C8_retry_drops_arguments (srv : server) (fuel : nat) (v : verb)
    (url : string) (body : option json) (query : option query_params)
    (st : state) :
  let first := first_request v url body query (self st) in
  let retry := retry_request v url body (self st) in
  let sent := requests_of (emitted st (snd (perform srv (S (S fuel)) v url body query st))) in
  Forall (fun rq => rq = retry) (tl sent) /\
  req_params retry = None /\
  (v = DELETE -> req_json retry = None) /\
  (v <> DELETE -> query <> None -> retry <> first) /\
  (v = DELETE -> body <> None -> retry <> first) /\
  (forall r, srv (served st) first = Answer r ->
             status_code r = 429%Z ->
             loggable v (self st) r = true ->
             nth_error sent 0 = Some first /\ nth_error sent 1 = Some retry).
Proof.
  intros first retry sent. subst first retry sent.
  split; [|split; [|split; [|split; [|split; [|intros r H H0 H1; split]]]]].
  - apply attempts_retries with (p := pause v)
      (rq := first_request v url body query (self st)).
    + now destruct v.
    + apply perform_emitted.
  - now destruct v.
  - now intros ->.
  - intros Hv Hq E. apply (f_equal req_params) in E. destruct v; simpl in E; congruence.
  - intros -> Hb E. apply (f_equal req_json) in E. simpl in E. congruence.
  - rewrite perform_S. cbv zeta. rewrite H.
    pose proof (logging_loggable v (self st) url r) as Hl. rewrite H1 in Hl.
    destruct (logging v (self st) url r) as [logs ok]. simpl in Hl. subst ok.
    rewrite H0. simpl.
    destruct (perform_trace srv (S fuel) v url (retried_body v body) None
                (add (after_send st (first_request v url body query (self st)))
                   (logs ++ pause v))) as (_ & new & Htr & _).
    erewrite emitted_app; [|rewrite Htr; simpl; rewrite <- !app_assoc; reflexivity].
    reflexivity.
  - rewrite perform_S. cbv zeta. rewrite H.
    destruct (logging_only_logs v (self st) url r) as (_ & Hrq & _).
    pose proof (logging_loggable v (self st) url r) as Hl. rewrite H1 in Hl.
    destruct (logging v (self st) url r) as [logs ok]. simpl in Hl, Hrq. subst ok.
    rewrite H0. simpl. rewrite perform_S. cbv zeta.
    set (st2 := add _ _).
    set (rq2 := first_request v url (retried_body v body) None (self st2)).
    assert (Hnew : forall res : outcome pyvalue * state,
               (exists more, trace (snd res) = (trace (after_send st2 rq2) ++ more)%list) ->
               nth_error (requests_of (emitted st (snd res))) 1 = Some rq2).
    { intros res [more Hm]. erewrite emitted_app;
        [|rewrite Hm; subst st2; simpl; rewrite <- !app_assoc; reflexivity].
      simpl. rewrite !requests_of_app, Hrq. simpl.
      replace (requests_of (pause v)) with (@nil request) by now destruct v.
      reflexivity. }
    destruct (srv (served st2) rq2) as [r2|msg].
    + destruct (logging v (self st2) url r2) as [logs2 [|]].
      * destruct (status_code r2 =? 429)%Z.
        -- destruct (perform_trace srv fuel v url
                       (retried_body v (retried_body v body)) None
                       (add (after_send st2 rq2) (logs2 ++ pause v)))
             as (_ & new & Htr & _).
           apply Hnew. exists ((logs2 ++ pause v) ++ new)%list.
           rewrite Htr. simpl. now rewrite <- !app_assoc.
        -- apply Hnew. now exists logs2.
      * apply Hnew. now exists logs2.
    + apply Hnew. exists []. simpl. now rewrite app_nil_r.
Qed.

Lemma C8_retry_drops_arguments_witness :
  let sent :=
    requests_of (emitted (fresh reader)
      (snd (http_get (limited 1) 2 "https://api.rechargeapps.com/products"
              (Some page_two) (fresh reader)))) in
  nth_error sent 0 =
    Some (mk_request GET "https://api.rechargeapps.com/products"
            (Some page_two) None (headers reader)) /\
  nth_error sent 1 =
    Some (mk_request GET "https://api.rechargeapps.com/products" None None
            (headers reader)).
Proof.
  destruct (C8_retry_drops_arguments (limited 1) 0 GET
              "https://api.rechargeapps.com/products" None (Some page_two)
              (fresh reader)) as (_ & _ & _ & _ & _ & H).
  apply (H too_many_requests); reflexivity.
Defined.

(** ** C9 *)

(** C9: with [scopes] being [None] or the empty list, [check_scopes] raises
    [ValueError("No scopes found for token.")] for every endpoint that is not
    in [allowed_endpoints], whatever the required scopes are, the empty list
    included; and a call of [check_scopes] that raises leaves the store, and
    so [allowed_endpoints], as it was. *)
Theorem C9_no_scopes_found (st : state) (endpoint : string)
    (required : list TokenScope) :
  scopes (self st) = None \/ scopes (self st) = Some [] ->
  py_in endpoint (allowed_endpoints (self st)) = false ->
  check_scopes endpoint required st =
    (Raise (ValueError "No scopes found for token."), st) /\
  check_scopes endpoint [] st =
    (Raise (ValueError "No scopes found for token."), st) /\
  (forall st0 endpoint0 required0 e st1,
      check_scopes endpoint0 required0 st0 = (Raise e, st1) ->
      st1 = st0 /\
      allowed_endpoints (self st1) = allowed_endpoints (self st0)).
Proof.
  intros Hsc Hnew.
  assert (Hfalsy : truthy (scopes (self st)) = false)
    by (destruct Hsc as [E|E]; now rewrite E).
  split; [|split].
  - now apply check_scopes_no_scopes.
  - now apply check_scopes_no_scopes.
  - intros st0 endpoint0 required0 e st1 H.
    apply check_scopes_raise_unchanged in H. now subst.
Qed.

Lemma C9_no_scopes_found_witness :
  check_scopes "GET /products" ["read_products"] (fresh unscoped) =
    (Raise (ValueError "No scopes found for token."), fresh unscoped) /\
  check_scopes "GET /products" [] (fresh unscoped) =
    (Raise (ValueError "No scopes found for token."), fresh unscoped) /\
  (forall st0 endpoint0 required0 e st1,
      check_scopes endpoint0 required0 st0 = (Raise e, st1) ->
      st1 = st0 /\
      allowed_endpoints (self st1) = allowed_endpoints (self st0)).
Proof.
  apply (C9_no_scopes_found (fresh unscoped) "GET /products" ["read_products"]).
  - left. reflexivity.
  - reflexivity.
Defined.

(** ** C4 and C10 *)

Lemma later_keeps (st st' : state) (endpoint : string) :
  later st st' ->
  py_in endpoint (allowed_endpoints (self st)) = true ->
  py_in endpoint (allowed_endpoints (self st')) = true.
Proof.
  induction 1 as [st|st st' e s _ IH|st st' srv fuel v url body query _ IH];
    intros H.
  - exact H.
  - apply check_scopes_keeps. now apply IH.
  - destruct (perform_trace srv fuel v url body query st') as [-> _]. now apply IH.
Qed.

(** C4: once [check_scopes endpoint required] has returned, every later call
    with the same endpoint and the same required scopes returns too and
    changes nothing; and it does so whatever the token's scopes are by then,
    so they are not looked at again. *)
Theorem C4_successful_check_is_cached (st st1 st2 : state) (endpoint : string)
    (required : list TokenScope) :
  check_scopes endpoint required st = (Ret tt, st1) ->
  later st1 st2 ->
  check_scopes endpoint required st2 = (Ret tt, st2) /\
  (forall sc,
      check_scopes endpoint required (with_scopes sc st2) =
        (Ret tt, with_scopes sc st2)).
Proof.
  intros Hok Hlater.
  apply check_scopes_approves in Hok.
  pose proof (later_keeps st1 st2 endpoint Hlater Hok) as Hin.
  split; [|intros sc]; now apply check_scopes_cached.
Qed.

Lemma C4_successful_check_is_cached_witness :
  let st1 := snd (check_scopes "GET /products" ["read_products"] (fresh reader)) in
  let st2 := snd (http_get (limited 1) 2 "https://api.rechargeapps.com/products"
                    None st1) in
  check_scopes "GET /products" ["read_products"] st2 = (Ret tt, st2) /\
  (forall sc,
      check_scopes "GET /products" ["read_products"] (with_scopes sc st2) =
        (Ret tt, with_scopes sc st2)).
Proof.
  apply (C4_successful_check_is_cached (fresh reader)
           (snd (check_scopes "GET /products" ["read_products"] (fresh reader)))).
  - reflexivity.
  - apply (later_http _ _ (limited 1) 2 GET
             "https://api.rechargeapps.com/products" None None).
    apply later_now.
Defined.

(** C10: the list of approved endpoints holds endpoint names only.  Once
    [check_scopes endpoint s] has returned, every later
    [check_scopes endpoint s'] returns as well, for any list [s'], the ones
    naming scopes the token does not hold included. *)
Theorem C10_cache_keyed_by_endpoint (st st1 st2 : state) (endpoint : string)
    (s s' : list TokenScope) :
  check_scopes endpoint s st = (Ret tt, st1) ->
  later st1 st2 ->
  check_scopes endpoint s' st2 = (Ret tt, st2).
Proof.
  intros Hok Hlater. apply check_scopes_cached.
  apply (later_keeps st1 st2 endpoint Hlater).
  now apply check_scopes_approves in Hok.
Qed.

Lemma C10_cache_keyed_by_endpoint_witness :
  let st1 := snd (check_scopes "GET /products" ["read_products"] (fresh reader)) in
  lacking (self st1) ["write_products"; "write_customers"] =
    ["write_products"; "write_customers"] /\
  check_scopes "GET /products" ["write_products"; "write_customers"] st1 =
    (Ret tt, st1).
Proof.
  split; [reflexivity|].
  apply (C10_cache_keyed_by_endpoint (fresh reader)
           (snd (check_scopes "GET /products" ["read_products"] (fresh reader)))
           (snd (check_scopes "GET /products" ["read_products"] (fresh reader)))
           "GET /products" ["read_products"]
           ["write_products"; "write_customers"]).
  - reflexivity.
  - apply later_now.
Defined.

(** ** C2 *)

(** C2, as the code has it: for an endpoint that is not approved yet and a
    token that lacks one of the required scopes, [check_scopes] raises
    [ValueError] and whatever follows it (the HTTP request of the method) is
    not run: the store and the trace stay as they were.  The message names
    the endpoint and quotes every missing scope when the token has scopes at
    all; when it has none ([None] or the empty list) the message is
    "No scopes found for token." and names no scope. *)
Theorem C2_missing_scope_blocks_request (B : Type) (st : state)
    (endpoint : string) (required : list TokenScope) (k : M B) :
  py_in endpoint (allowed_endpoints (self st)) = false ->
  (exists s, In s required /\ py_in s (or_empty (scopes (self st))) = false) ->
  exists msg,
    check_scopes endpoint required st = (Raise (ValueError msg), st) /\
    (check_scopes endpoint required ;;; k) st = (Raise (ValueError msg), st) /\
    msg = (if truthy (scopes (self st))
           then missing_scopes_message endpoint (lacking (self st) required)
           else no_scopes_message) /\
    (truthy (scopes (self st)) = true ->
     forall s, In s required -> py_in s (or_empty (scopes (self st))) = false ->
               py_contains (py_repr_str s) msg = true).
Proof.
  intros Hnew (s0 & Hin0 & Hlack0).
  assert (Hne : lacking (self st) required <> []).
  { intros E. assert (H : In s0 (lacking (self st) required)).
    { apply filter_In. split; [exact Hin0 | now rewrite Hlack0]. }
    rewrite E in H. exact H. }
  destruct (truthy (scopes (self st))) eqn:Ht.
  - exists (missing_scopes_message endpoint (lacking (self st) required)).
    assert (E := check_scopes_missing endpoint required st Hnew Ht Hne).
    split; [exact E|]. split; [unfold bind; now rewrite E|].
    split; [reflexivity|]. intros _ s Hin Hlack.
    unfold missing_scopes_message.
    apply py_contains_suffix with (a := "Endpoint ").
    apply py_contains_suffix. apply py_contains_suffix with (a := " missing scopes: ").
    apply py_repr_list_mentions. apply filter_In.
    split; [exact Hin | now rewrite Hlack].
  - exists no_scopes_message.
    assert (E := check_scopes_no_scopes endpoint required st Hnew Ht).
    split; [exact E|]. split; [unfold bind; now rewrite E|].
    split; [reflexivity | discriminate].
Qed.

Lemma C2_missing_scope_blocks_request_witness :
  exists msg,
    check_scopes "POST /products" ["read_products"; "write_products"]
      (fresh reader) = (Raise (ValueError msg), fresh reader) /\
    (check_scopes "POST /products" ["read_products"; "write_products"] ;;;
     http_post (always ok_response) 1 "https://api.rechargeapps.com/products"
       (Some JNull) None) (fresh reader) = (Raise (ValueError msg), fresh reader) /\
    msg = "Endpoint POST /products missing scopes: ['write_products']" /\
    (truthy (scopes reader) = true ->
     forall s, In s ["read_products"; "write_products"] ->
               py_in s (or_empty (scopes reader)) = false ->
               py_contains (py_repr_str s) msg = true).
Proof.
  apply (C2_missing_scope_blocks_request pyvalue (fresh reader) "POST /products"
           ["read_products"; "write_products"]
           (http_post (always ok_response) 1
              "https://api.rechargeapps.com/products" (Some JNull) None)).
  - reflexivity.
  - exists "write_products". split; [simpl; tauto | reflexivity].
Defined.

(** C2 as stated fails: a token without scopes lacks the required scope, yet
    the error raised names no scope. *)
Lemma C2_no_scope_named :
  py_in "POST /products" (allowed_endpoints unscoped) = false /\
  lacking unscoped ["write_products"] = ["write_products"] /\
  check_scopes "POST /products" ["write_products"] (fresh unscoped) =
    (Raise (ValueError "No scopes found for token."), fresh unscoped) /\
  py_contains "write_products" "No scopes found for token." = false.
Proof. repeat split. Qed.

(** ** C5 *)

Lemma call_declared (srv : server) (fuel : nat) (h : private_helpers)
    (m : method) (endpoint : string) (required : list TokenScope) :
  declared m = Some (endpoint, required) ->
  exists rest,
    forall st, call srv fuel h m st = (check_scopes endpoint required ;;; rest) st.
Proof.
  destruct m; simpl; intros H; inversion H; subst; clear H;
    eexists; intros st; reflexivity.
Qed.

(** C5, as the code has it: every method that declares required scopes, which
    is every method of the four classes but [AddressResource.validate], runs
    [check_scopes] on them before anything else; when the check raises, the
    method raises the same error and adds nothing to the trace, so no request
    is issued.  [validate] declares no scopes and goes straight to
    [http_post]. *)
Theorem C5_scopes_checked_first (srv : server) (fuel : nat)
    (h : private_helpers) (m : method) (endpoint : string)
    (required : list TokenScope) :
  declared m = Some (endpoint, required) ->
  (exists rest,
      forall st,
        call srv fuel h m st = (check_scopes endpoint required ;;; rest) st) /\
  (forall st e st',
      check_scopes endpoint required st = (Raise e, st') ->
      call srv fuel h m st = (Raise e, st) /\
      emitted st (snd (call srv fuel h m st)) = []) /\
  (forall m', declared m' = None <-> exists body, m' = Address_validate body) /\
  (forall body st,
      call srv fuel h (Address_validate body) st =
      http_post srv fuel "https://api.rechargeapps.com/addresses/validate_address"
        (Some body) None st).
Proof.
  intros Hd. destruct (call_declared srv fuel h m endpoint required Hd) as [rest Hrest].
  split; [now exists rest|]. split; [|split].
  - intros st e st' Hraise.
    pose proof (check_scopes_raise_unchanged _ _ _ _ _ Hraise) as ->.
    rewrite Hrest. unfold bind. rewrite Hraise. split; [reflexivity|].
    apply emitted_app. simpl. now rewrite app_nil_r.
  - intros m'. split.
    + destruct m'; simpl; try discriminate. intros _. now exists body.
    + intros [body ->]. reflexivity.
  - reflexivity.
Qed.

Lemma C5_scopes_checked_first_witness :
  (exists rest,
      forall st,
        call (always ok_response) 1 (public_as_private (always ok_response) 1)
          (Discount_delete "7") st =
        (check_scopes "DELETE /discounts/:discount_id" ["write_discounts"] ;;;
         rest) st) /\
  (forall st e st',
      check_scopes "DELETE /discounts/:discount_id" ["write_discounts"] st =
        (Raise e, st') ->
      call (always ok_response) 1 (public_as_private (always ok_response) 1)
        (Discount_delete "7") st = (Raise e, st) /\
      emitted st
        (snd (call (always ok_response) 1
                (public_as_private (always ok_response) 1)
                (Discount_delete "7") st)) = []) /\
  (forall m', declared m' = None <-> exists body, m' = Address_validate body) /\
  (forall body st,
      call (always ok_response) 1 (public_as_private (always ok_response) 1)
        (Address_validate body) st =
      http_post (always ok_response) 1
        "https://api.rechargeapps.com/addresses/validate_address"
        (Some body) None st).
Proof.
  apply (C5_scopes_checked_first (always ok_response) 1
           (public_as_private (always ok_response) 1) (Discount_delete "7")
           "DELETE /discounts/:discount_id" ["write_discounts"]).
  reflexivity.
Defined.

(** C5 as stated fails for [AddressResource.validate]: on a resource whose
    token has no scopes and whose list of approved endpoints is empty, so
    that no scope check can pass, it issues its POST all the same. *)
Lemma C5_validate_skips_check :
  let run := AddressResource.validate (always ok_response) 1 (JDict [])
               (fresh unscoped) in
  scopes unscoped = None /\
  allowed_endpoints unscoped = [] /\
  check_scopes "POST /addresses/validate_address" [] (fresh unscoped) =
    (Raise (ValueError "No scopes found for token."), fresh unscoped) /\
  fst run = Ret (Parsed (JDict [("ok", JBool true)])) /\
  requests_of (trace (snd run)) =
    [mk_request POST "https://api.rechargeapps.com/addresses/validate_address"
       None (Some (JDict [])) (headers unscoped)].
Proof. repeat split. Qed.

(** ** C6 *)

Lemma call_public (srv : server) (fuel : nat) (h : private_helpers) (m : method)
    (v : verb) (url : string) (body : option json) (query : option query_params) :
  public_request m = Some (v, url, body, query) ->
  forall st,
    call srv fuel h m st =
    match declared m with
    | Some (endpoint, required) =>
        (check_scopes endpoint required ;;; perform srv fuel v url body query) st
    | None => perform srv fuel v url body query st
    end.
Proof.
  destruct m; simpl; intros H; inversion H; subst; clear H; intros st; reflexivity.
Qed.

Lemma check_scopes_frame (endpoint : string) (required : list TokenScope)
    (st st1 : state) (o : outcome unit) :
  check_scopes endpoint required st = (o, st1) ->
  debug (self st1) = debug (self st) /\
  access_token (self st1) = access_token (self st) /\
  scopes (self st1) = scopes (self st) /\
  served st1 = served st /\ trace st1 = trace st.
Proof.
  intros H.
  destruct (check_scopes_cases endpoint required st)
    as [[_ E]|[[_ E]|[_ [msg E]]]]; rewrite E in H; inversion H; subst;
    repeat split.
Qed.

Lemma loggable_debug (v : verb) (a b : RechargeResource) (r : response) :
  debug a = debug b -> loggable v a r = loggable v b r.
Proof. intros H. unfold loggable, logging, logs_limit. now rewrite H. Qed.

Lemma call_private (srv : server) (fuel : nat) (h : private_helpers)
    (m : method) (k : M pyvalue) :
  private_request h m = Some k ->
  exists endpoint required,
    declared m = Some (endpoint, required) /\
    forall st, call srv fuel h m st = (check_scopes endpoint required ;;; k) st.
Proof.
  destruct m; simpl; intros H; inversion H; subst; clear H;
    do 2 eexists; (split; [reflexivity|]); intros st; reflexivity.
Qed.

(** C6, as the code has it.  For a method of [AddressResource] or
    [ProductResource]:
    - a value it returns comes from the answer to the last request it
      issued, whose status is not 429: the parsed body [r.json()] when the
      method ends in [http_get], [http_put] or [http_post], and the response
      object [r] itself, unparsed, when it ends in [http_delete];
    - it does return that value when its scope check passes, the first [n]
      requests are answered with 429s that can be logged, there is fuel
      (recursion depth) for the [n] retries, and the next answer [r] has
      another status and can be logged ([http_delete] reads the limit header
      always, the other helpers in debug mode); for the methods that parse,
      a body that does not parse gives the error of [json()] instead;
    - an answer [r] that cannot be logged gives [KeyError].
    A method of [DiscountResource] or [AsyncBatchResource] runs its scope
    check and then hands back, unchanged, what the private helper it calls
    hands back.  Every method is of one of the two kinds. *)
Theorem C6_parsed_body_except_delete (srv : server) (fuel : nat)
    (h : private_helpers) (m : method) :
  (forall v url body query st val,
      public_request m = Some (v, url, body, query) ->
      fst (call srv fuel h m st) = Ret val ->
      exists k r,
        served (snd (call srv fuel h m st)) = served st + S k /\
        srv (served st + k) (nth_request v url body query (self st) k) = Answer r /\
        status_code r <> 429%Z /\
        match v with
        | DELETE => val = RawResponse r
        | _ => exists j, json_body r = Some j /\ val = Parsed j
        end) /\
  (forall v url body query st n r,
      public_request m = Some (v, url, body, query) ->
      admitted m st ->
      n < fuel ->
      limited_on_call srv v url body query st n ->
      srv (served st + n) (nth_request v url body query (self st) n) = Answer r ->
      status_code r <> 429%Z ->
      (loggable v (self st) r = true ->
       fst (call srv fuel h m st) =
       match v with
       | DELETE => Ret (RawResponse r)
       | _ =>
           match json_body r with
           | Some j => Ret (Parsed j)
           | None => Raise JSONDecodeError
           end
       end) /\
      (loggable v (self st) r = false ->
       fst (call srv fuel h m st) = Raise (KeyError "x-recharge-limit"))) /\
  (forall k,
      private_request h m = Some k ->
      exists endpoint required,
        declared m = Some (endpoint, required) /\
        forall st st1,
          check_scopes endpoint required st = (Ret tt, st1) ->
          call srv fuel h m st = k st1) /\
  (public_request m <> None \/ private_request h m <> None).
Proof.
  split; [|split; [|split]].
  - intros v url body query st val Hpub Hval.
    rewrite (call_public srv fuel h m v url body query Hpub) in *.
    assert (Hrun : forall st1,
               access_token (self st1) = access_token (self st) ->
               served st1 = served st ->
               fst (perform srv fuel v url body query st1) = Ret val ->
               exists k r,
                 served (snd (perform srv fuel v url body query st1)) =
                   served st + S k /\
                 srv (served st + k) (nth_request v url body query (self st) k)
                   = Answer r /\
                 status_code r <> 429%Z /\
                 match v with
                 | DELETE => val = RawResponse r
                 | _ => exists j, json_body r = Some j /\ val = Parsed j
                 end).
    { intros st1 Htok Hs Hret.
      destruct (perform srv fuel v url body query st1) as [o st'] eqn:Hp.
      simpl in Hret. subst o.
      destruct (perform_finished srv fuel v url body query st1 st' (Ret val) Hp)
        as (k & new & _ & Hserved & _ & _ & _ & Hlast); [discriminate|].
      destruct (Hlast val eq_refl) as (r & Hr & Hne & Hres).
      exists k, r. simpl. rewrite <- Hs.
      rewrite <- (nth_request_token v url body query (self st1) (self st) k Htok).
      repeat split; trivial.
      destruct v; simpl in Hres;
        [congruence | destruct (json_body r) as [j|]; [|discriminate];
                      exists j; split; congruence ..]. }
    destruct (declared m) as [[endpoint required]|]; [|now apply Hrun].
    unfold bind in *.
    destruct (check_scopes endpoint required st) as [o st1] eqn:Hc.
    destruct (check_scopes_frame _ _ _ _ _ Hc) as (_ & Htok & _ & Hs & _).
    destruct o as [[]| |]; simpl in Hval; try discriminate. now apply Hrun.
  - intros v url body query st n r Hpub Hadm Hfuel Hlim Hans Hst.
    rewrite (call_public srv fuel h m v url body query Hpub).
    assert (Hrun : forall st1,
               debug (self st1) = debug (self st) ->
               access_token (self st1) = access_token (self st) ->
               served st1 = served st ->
               fst (perform srv fuel v url body query st1) =
               if loggable v (self st) r then result_of v r
               else Raise (KeyError "x-recharge-limit")).
    { intros st1 Hd Htok Hs.
      destruct (perform_limited_exact srv n fuel v url body query st1 r)
        as (new & E & _); trivial.
      - intros i Hi. destruct (Hlim i Hi) as (x & Hx & H429 & Hl).
        exists x. rewrite Hs, (nth_request_token _ _ _ _ _ (self st) _ Htok).
        repeat split; trivial. now rewrite (loggable_debug v _ (self st)).
      - now rewrite Hs, (nth_request_token _ _ _ _ _ (self st) _ Htok).
      - now left.
      - rewrite E. simpl. now rewrite (loggable_debug v _ (self st)). }
    assert (Hcall : fst (match declared m with
                         | Some (endpoint, required) =>
                             (check_scopes endpoint required;;;
                              perform srv fuel v url body query) st
                         | None => perform srv fuel v url body query st
                         end) =
                    if loggable v (self st) r then result_of v r
                    else Raise (KeyError "x-recharge-limit")).
    { unfold admitted in Hadm.
      destruct (declared m) as [[endpoint required]|]; [|now apply Hrun].
      unfold bind. destruct (check_scopes endpoint required st) as [o st1] eqn:E.
      simpl in Hadm. subst o.
      destruct (check_scopes_frame _ _ _ _ _ E) as (Hd & Htok & _ & Hs & _).
      now apply Hrun. }
    rewrite Hcall. split; intros ->; [now destruct v | reflexivity].
  - intros k Hk.
    destruct (call_private srv fuel h m k Hk) as (endpoint & required & Hd & Hcall).
    exists endpoint, required. split; [exact Hd|].
    intros st st1 Hc. rewrite Hcall. unfold bind. now rewrite Hc.
  - destruct m; simpl; (left; discriminate) || (right; discriminate).
Qed.

Lemma C6_parsed_body_except_delete_witness :
  (loggable PUT writer ok_response = true ->
   fst (call (limited 1) 2 (public_as_private (limited 1) 2)
          (Address_update "7" (Some (JDict [("city", JStr "Leeds")])))
          (fresh writer)) =
     Ret (Parsed (JDict [("ok", JBool true)]))) /\
  (loggable DELETE writer ok_response = true ->
   fst (call (limited 1) 2 (public_as_private (limited 1) 2)
          (Address_delete "7") (fresh writer)) =
     Ret (RawResponse ok_response)).
Proof.
  split.
  - apply (proj1 (proj2 (C6_parsed_body_except_delete (limited 1) 2
                    (public_as_private (limited 1) 2)
                    (Address_update "7" (Some (JDict [("city", JStr "Leeds")])))))
             PUT "https://api.rechargeapps.com/addresses/7"
             (Some (JDict [("city", JStr "Leeds")])) None (fresh writer) 1
             ok_response).
    + reflexivity.
    + reflexivity.
    + lia.
    + now apply limited_on_call_limited.
    + reflexivity.
    + discriminate.
  - apply (proj1 (proj2 (C6_parsed_body_except_delete (limited 1) 2
                    (public_as_private (limited 1) 2) (Address_delete "7")))
             DELETE "https://api.rechargeapps.com/addresses/7" None None
             (fresh writer) 1 ok_response).
    + reflexivity.
    + reflexivity.
    + lia.
    + now apply limited_on_call_limited.
    + reflexivity.
    + discriminate.
Defined.

(** C6 as stated fails for DELETE: [AddressResource.delete] hands back the
    response object, not its parsed body, though the body parses. *)
Lemma C6_delete_returns_response :
  let run := AddressResource.delete (always ok_response) 1 "7" (fresh writer) in
  json_body ok_response = Some (JDict [("ok", JBool true)]) /\
  fst run = Ret (RawResponse ok_response) /\
  fst run <> Ret (Parsed (JDict [("ok", JBool true)])).
Proof. repeat split. discriminate. Qed.

(** * Further properties of the shared client *)





(** X10: a helper hands back a value only for a response whose status is
    not 429.  When a call returns [val], it has issued [k + 1] requests for
    some [k], the first [k] answers were 429s, and [val] is what the last
    answer gives: its parsed body, or for DELETE the response itself. *)
Theorem X10_value_comes_from_final_response (srv : server) (fuel : nat)
    (v : verb) (url : string) (body : option json)
    (query : option query_params) (st : state) (val : pyvalue) :
  fst (perform srv fuel v url body query st) = Ret val ->
  exists k r,
    served (snd (perform srv fuel v url body query st)) = served st + S k /\
    srv (served st + k) (nth_request v url body query (self st) k) = Answer r /\
    status_code r <> 429%Z /\
    result_of v r = Ret val /\
    (forall i, i < k ->
       exists ri, srv (served st + i) (nth_request v url body query (self st) i)
                    = Answer ri /\ status_code ri = 429%Z).
Proof.
  intros Hval.
  destruct (perform srv fuel v url body query st) as [o st'] eqn:Hrun.
  simpl in Hval. subst o.
  destruct (perform_finished srv fuel v url body query st st' (Ret val) Hrun)
    as (k & new & _ & Hserved & _ & _ & Hlim & Hret); [discriminate|].
  destruct (Hret val eq_refl) as (r & Hr & Hne & Hres).
  exists k, r. simpl. repeat split; trivial.
Qed.

Lemma X10_value_comes_from_final_response_witness :
  exists k r,
    served (snd (http_post (limited 2) 3 "https://api.rechargeapps.com/products"
                   (Some JNull) (Some page_two) (fresh writer))) = 0 + S k /\
    limited 2 (0 + k)
      (nth_request POST "https://api.rechargeapps.com/products" (Some JNull)
         (Some page_two) writer k) = Answer r /\
    status_code r <> 429%Z /\
    result_of POST r = Ret (Parsed (JDict [("ok", JBool true)])) /\
    (forall i, i < k ->
       exists ri,
         limited 2 (0 + i)
           (nth_request POST "https://api.rechargeapps.com/products" (Some JNull)
              (Some page_two) writer i) = Answer ri /\
         status_code ri = 429%Z).
Proof.
  apply (X10_value_comes_from_final_response (limited 2) 3 POST
           "https://api.rechargeapps.com/products" (Some JNull) (Some page_two)
           (fresh writer) (Parsed (JDict [("ok", JBool true)]))).
  reflexivity.
Defined.

(** X11: a call of [http_get], [http_put] or [http_post] that ends, with a
    value or with any exception, has slept exactly one second for each
    request after the first, whatever the server did. *)
Theorem X11_one_sleep_per_retry (srv : server) (fuel : nat) (v : verb)
    (url : string) (body : option json) (query : option query_params)
    (st : state) :
  v <> DELETE ->
  fst (perform srv fuel v url body query st) <> OutOfFuel ->
  let new := emitted st (snd (perform srv fuel v url body query st)) in
  1 <= List.length (requests_of new) /\
  sleeps_of new = repeat 1%Z (List.length (requests_of new) - 1).
Proof.
  intros Hv Hend new. subst new.
  destruct (perform srv fuel v url body query st) as [o st'] eqn:Hrun.
  simpl in Hend.
  destruct (perform_finished srv fuel v url body query st st' o Hrun Hend)
    as (k & new & Htr & _ & Hreqs & Hsleeps & _).
  simpl. rewrite (emitted_app st st' new Htr), Hreqs, Hsleeps. simpl.
  rewrite repeat_length, Nat.sub_0_r. split; [lia | destruct v; congruence].
Qed.

Lemma X11_one_sleep_per_retry_witness :
  let new := emitted (fresh reader)
               (snd (http_get (limited 3) 4 "https://api.rechargeapps.com/products"
                       (Some page_two) (fresh reader))) in
  1 <= List.length (requests_of new) /\
  sleeps_of new = repeat 1%Z (List.length (requests_of new) - 1).
Proof.
  apply (X11_one_sleep_per_retry (limited 3) 4 GET
           "https://api.rechargeapps.com/products" None (Some page_two)
           (fresh reader)).
  - discriminate.
  - discriminate.
Defined.

(** X12: a helper call never changes the resource object, and every request
    it issues, first or retried, has the verb, the URL and the headers of
    the call; for PUT and POST the retried requests also keep the body. *)
Theorem X12_retries_keep_target (srv : server) (fuel : nat) (v : verb)
    (url : string) (body : option json) (query : option query_params)
    (st : state) :
  let run := perform srv fuel v url body query st in
  self (snd run) = self st /\
  Forall (fun rq =>
            req_verb rq = v /\ req_url rq = url /\
            req_headers rq = headers (self st) /\
            (v = PUT \/ v = POST -> req_json rq = body))
    (requests_of (emitted st (snd run))).
Proof.
  intros run. subst run.
  destruct (perform_trace srv fuel v url body query st) as (Hself & _).
  split; [exact Hself|].
  pose proof (perform_emitted srv fuel v url body query st) as Hatt.
  apply attempts_requests in Hatt; [|now destruct v].
  assert (Hfirst : forall q b,
            (v = PUT \/ v = POST -> b = body) ->
            req_verb (first_request v url b q (self st)) = v /\
            req_url (first_request v url b q (self st)) = url /\
            req_headers (first_request v url b q (self st)) = headers (self st) /\
            (v = PUT \/ v = POST -> req_json (first_request v url b q (self st)) = body)).
  { intros q b Hb. repeat split. intros Hv. simpl.
    destruct v; destruct Hv; try discriminate; now apply Hb; auto. }
  destruct Hatt as [E|[k E]]; rewrite E; [constructor|].
  constructor; [now apply Hfirst|].
  apply Forall_forall. intros rq Hrq. apply repeat_spec in Hrq. subst rq.
  apply Hfirst. intros Hv. destruct v; destruct Hv; try discriminate; reflexivity.
Qed.

(** ** Logging *)

Lemma logs_of_app (a b : list event) :
  logs_of (a ++ b) = (logs_of a ++ logs_of b)%list.
Proof. apply flat_map_app. Qed.

Lemma perform_quiet (srv : server) (fuel : nat) :
  forall (v : verb) (url : string) (body : option json)
         (query : option query_params) (st : state),
    logs_limit v (self st) = false ->
    exists new,
      trace (snd (perform srv fuel v url body query st)) = (trace st ++ new)%list /\
      logs_of new = [].
Proof.
  induction fuel as [|fuel IH]; intros v url body query st Hq.
  - rewrite perform_O. exists []. now rewrite app_nil_r.
  - rewrite perform_S. cbv zeta. unfold logging. rewrite Hq.
    set (rq := first_request v url body query (self st)).
    destruct (srv (served st) rq) as [resp|msg].
    + destruct (status_code resp =? 429)%Z.
      * destruct (IH v url (retried_body v body) None
                    (add (after_send st rq) ([] ++ pause v)) Hq)
          as (new & Htr & Hlogs).
        exists (Sent rq :: pause v ++ new)%list. split.
        -- rewrite Htr. simpl. now rewrite <- !app_assoc.
        -- simpl. rewrite logs_of_app, Hlogs. now destruct v.
      * exists [Sent rq]. simpl. now rewrite app_nil_r.
    + now exists [Sent rq].
Qed.

(** X6: with [debug] off, [http_get], [http_put] and [http_post] give
    nothing to the logger, however many requests they issue. *)
Theorem X6_no_log_lines_without_debug (srv : server) (fuel : nat) (v : verb)
    (url : string) (body : option json) (query : option query_params)
    (st : state) :
  v <> DELETE ->
  debug (self st) = false ->
  logs_of (emitted st (snd (perform srv fuel v url body query st))) = [].
Proof.
  intros Hv Hd.
  destruct (perform_quiet srv fuel v url body query st) as (new & Htr & Hlogs).
  - destruct v; [congruence | exact Hd ..].
  - now rewrite (emitted_app _ _ _ Htr).
Qed.

Lemma X6_no_log_lines_without_debug_witness :
  logs_of (emitted (fresh reader)
             (snd (http_get (limited 2) 3 "https://api.rechargeapps.com/products"
                     (Some page_two) (fresh reader)))) = [].
Proof.
  apply (X6_no_log_lines_without_debug (limited 2) 3 GET
           "https://api.rechargeapps.com/products" None (Some page_two)
           (fresh reader)).
  - discriminate.
  - reflexivity.
Defined.

(** X7: [http_delete] always, and the other helpers in debug mode, look the
    limit header up before they test the status.  A response without the
    header makes the call raise [KeyError] after the URL has been logged,
    with the request already issued and no retry, even for a 429; a response
    with the header gets the URL and the header value logged. *)
Theorem X7_limit_header_looked_up_first (srv : server) (fuel : nat) (v : verb)
    (url : string) (body : option json) (query : option query_params)
    (st : state) (r : response) :
  v = DELETE \/ debug (self st) = true ->
  srv (served st) (first_request v url body query (self st)) = Answer r ->
  let run := perform srv (S fuel) v url body query st in
  (recharge_limit r = None ->
   fst run = Raise (KeyError "x-recharge-limit") /\
   emitted st (snd run) =
     [Sent (first_request v url body query (self st)); Logged url]) /\
  (forall limit, recharge_limit r = Some limit ->
   exists rest,
     emitted st (snd run) =
       Sent (first_request v url body query (self st))
         :: Logged url :: Logged limit :: rest).
Proof.
  intros Hlog Hr run. subst run. rewrite perform_S. cbv zeta. rewrite Hr.
  assert (Hl : logs_limit v (self st) = true)
    by (destruct Hlog as [->|Hd]; [reflexivity | now destruct v]).
  unfold logging. rewrite Hl. split.
  - intros ->. split; [reflexivity|]. apply emitted_app. simpl.
    now rewrite <- app_assoc.
  - intros limit ->. destruct (status_code r =? 429)%Z.
    + destruct (perform_trace srv fuel v url (retried_body v body) None
                  (add (after_send st (first_request v url body query (self st)))
                     ([Logged url; Logged limit] ++ pause v)))
        as (_ & new & Htr & _).
      exists (pause v ++ new)%list. apply emitted_app. rewrite Htr. simpl.
      now rewrite <- !app_assoc.
    + exists []. apply emitted_app. simpl. now rewrite <- app_assoc.
Qed.

Lemma X7_limit_header_looked_up_first_witness :
  let bare := mk_response 429 None None in
  let run := http_delete (always bare) 2
               "https://api.rechargeapps.com/products/7" None (fresh reader) in
  (recharge_limit bare = None ->
   fst run = Raise (KeyError "x-recharge-limit") /\
   emitted (fresh reader) (snd run) =
     [Sent (first_request DELETE "https://api.rechargeapps.com/products/7" None
              None reader);
      Logged "https://api.rechargeapps.com/products/7"]) /\
  (forall limit, recharge_limit bare = Some limit ->
   exists rest,
     emitted (fresh reader) (snd run) =
       Sent (first_request DELETE "https://api.rechargeapps.com/products/7" None
               None reader)
         :: Logged "https://api.rechargeapps.com/products/7"
         :: Logged limit :: rest).
Proof.
  intros bare.
  apply (X7_limit_header_looked_up_first (always bare) 1 DELETE
           "https://api.rechargeapps.com/products/7" None None (fresh reader) bare).
  - left. reflexivity.
  - reflexivity.
Defined.

(** ** Scope checking *)

Lemma lacking_nil (this : RechargeResource) (required : list TokenScope) :
  lacking this required = [] <->
  forall s, In s required -> py_in s (or_empty (scopes this)) = true.
Proof.
  unfold lacking. induction required as [|x rest IH]; simpl.
  - split; [intros _ s [] | reflexivity].
  - destruct (py_in x (or_empty (scopes this))) eqn:E; simpl.
    + rewrite IH. split; [intros H s [<-|Hs]; auto | auto].
    + split; [discriminate|]. intros H. specialize (H x (or_introl eq_refl)).
      congruence.
Qed.

Lemma check_scopes_returns (endpoint : string) (required : list TokenScope)
    (st st' : state) :
  check_scopes endpoint required st = (Ret tt, st') ->
  (py_in endpoint (allowed_endpoints (self st)) = true /\ st' = st) \/
  (py_in endpoint (allowed_endpoints (self st)) = false /\
   truthy (scopes (self st)) = true /\ lacking (self st) required = [] /\
   st' = approve endpoint st).
Proof.
  intros H. destruct (py_in endpoint (allowed_endpoints (self st))) eqn:H1.
  - rewrite check_scopes_cached in H by exact H1. left. split; congruence.
  - right. destruct (truthy (scopes (self st))) eqn:H2.
    + destruct (lacking (self st) required) eqn:H3.
      * rewrite check_scopes_granted in H by assumption.
        repeat split; congruence.
      * rewrite check_scopes_missing in H by congruence. discriminate.
    + rewrite check_scopes_no_scopes in H by assumption. discriminate.
Qed.

(** X1: [check_scopes] returns exactly when the endpoint is already in
    [allowed_endpoints], or the token has at least one scope and holds every
    required one; in every other case it raises.  A token with scopes passes
    an empty requirement, a token without scopes passes none. *)
Theorem X1_check_scopes_returns_iff (st : state) (endpoint : string)
    (required : list TokenScope) :
  (exists st', check_scopes endpoint required st = (Ret tt, st')) <->
  (py_in endpoint (allowed_endpoints (self st)) = true \/
   (truthy (scopes (self st)) = true /\
    forall s, In s required -> py_in s (or_empty (scopes (self st))) = true)).
Proof.
  split.
  - intros [st' H]. apply check_scopes_returns in H.
    destruct H as [[H _]|(_ & Ht & Hl & _)]; [now left | right].
    split; [exact Ht | now apply lacking_nil].
  - intros H. destruct (py_in endpoint (allowed_endpoints (self st))) eqn:H1.
    + exists st. now apply check_scopes_cached.
    + destruct H as [H|[Ht Hl]]; [discriminate|].
      exists (approve endpoint st). apply check_scopes_granted; trivial.
      now apply lacking_nil.
Qed.

Lemma NoDup_snoc (l : list string) (e : string) :
  NoDup l -> ~ In e l -> NoDup (l ++ [e]).
Proof.
  induction 1 as [|x l Hx Hl IH]; intros Hnot; simpl.
  - constructor; [intros [] | constructor].
  - constructor.
    + rewrite in_app_iff. simpl. intros [Hin|[E|[]]]; [tauto|].
      apply Hnot. now left.
    + apply IH. intros Hin. apply Hnot. now right.
Qed.

Lemma allowed_grows (st st' : state) :
  later st st' ->
  exists added,
    allowed_endpoints (self st') = (allowed_endpoints (self st) ++ added)%list /\
    (NoDup (allowed_endpoints (self st)) -> NoDup (allowed_endpoints (self st'))).
Proof.
  induction 1 as [st|st st' e s _ IH|st st' srv fuel v url body query _ IH].
  - exists []. now rewrite app_nil_r.
  - destruct IH as (added & E & Hnd).
    destruct (check_scopes_cases e s st') as [[_ H]|[[Hnew H]|[_ [msg H]]]];
      rewrite H; simpl; try (exists added; now split).
    exists (added ++ [e])%list. split; [now rewrite E, app_assoc|].
    intros Hst. apply NoDup_snoc; [now apply Hnd|].
    rewrite <- py_in_In. congruence.
  - destruct (perform_trace srv fuel v url body query st') as [-> _]. exact IH.
Qed.

(** X2: [allowed_endpoints] only grows, and only at its end: whatever calls
    of [check_scopes] and of the helpers follow, the list of before is a
    prefix of the list of after.  Nothing is removed or reordered. *)
Theorem X2_allowed_endpoints_only_grow (st st' : state) :
  later st st' ->
  exists added,
    allowed_endpoints (self st') = (allowed_endpoints (self st) ++ added)%list.
Proof.
  intros H. destruct (allowed_grows st st' H) as (added & E & _). now exists added.
Qed.

Lemma X2_allowed_endpoints_only_grow_witness :
  exists added,
    allowed_endpoints
      (self (snd (check_scopes "GET /products" ["read_products"]
                    (snd (check_scopes "GET /products/count" ["read_products"]
                            (fresh reader)))))) =
    (allowed_endpoints (self (fresh reader)) ++ added)%list.
Proof.
  apply X2_allowed_endpoints_only_grow.
  apply later_check. apply later_check. apply later_now.
Defined.

(** X3: [check_scopes] appends an endpoint only when it is not in the list
    yet, so a list without duplicates stays without duplicates; the list of a
    newly constructed resource, being empty, never gets any. *)
Theorem X3_allowed_endpoints_no_duplicates (st st' : state) :
  NoDup (allowed_endpoints (self st)) ->
  later st st' ->
  NoDup (allowed_endpoints (self st')).
Proof.
  intros Hnd H. destruct (allowed_grows st st' H) as (added & _ & Hkeep). auto.
Qed.

Lemma X3_allowed_endpoints_no_duplicates_witness :
  NoDup (allowed_endpoints
           (self (snd (check_scopes "GET /products" ["read_products"]
                         (snd (check_scopes "GET /products" ["read_products"]
                                 (fresh reader))))))).
Proof.
  apply (X3_allowed_endpoints_no_duplicates (fresh reader)).
  - constructor.
  - apply later_check. apply later_check. apply later_now.
Defined.

(** X4: scopes added to a token never turn a passing check into a failing
    one: when [check_scopes] returns for a resource, it returns for the
    resource with any token that holds at least the same scopes. *)
Theorem X4_more_scopes_never_break (st st1 : state) (endpoint : string)
    (required more : list TokenScope) :
  check_scopes endpoint required st = (Ret tt, st1) ->
  (forall s, In s (or_empty (scopes (self st))) -> In s more) ->
  exists st2,
    check_scopes endpoint required (with_scopes (Some more) st) = (Ret tt, st2).
Proof.
  intros Hok Hsub. apply check_scopes_returns in Hok.
  destruct Hok as [[Hin _]|(Hnew & Ht & Hl & _)].
  - eexists. now apply check_scopes_cached.
  - eexists. apply check_scopes_granted; simpl; trivial.
    + destruct (scopes (self st)) as [[|x l]|]; try discriminate.
      specialize (Hsub x (or_introl eq_refl)). now destruct more.
    + apply lacking_nil. simpl. intros s Hs. apply py_in_In, Hsub, py_in_In.
      now apply (proj1 (lacking_nil (self st) required)).
Qed.

Lemma X4_more_scopes_never_break_witness :
  exists st2,
    check_scopes "GET /products" ["read_products"]
      (with_scopes (Some ["write_products"; "read_customers"; "read_products"])
         (fresh reader)) = (Ret tt, st2).
Proof.
  apply (X4_more_scopes_never_break (fresh reader)
           (approve "GET /products" (fresh reader)) "GET /products"
           ["read_products"]
           ["write_products"; "read_customers"; "read_products"]).
  - reflexivity.
  - simpl. intros s [<-|[<-|[]]]; tauto.
Defined.

(** X5: the loop of [check_scopes] collects the required scopes that the
    token does not hold, each as often and in the order as it is required,
    and nothing else. *)
Theorem X5_missing_scopes_collected (token required : list TokenScope) :
  collect_missing token required [] =
    filter (fun s => negb (py_in s token)) required /\
  (forall s, In s (collect_missing token required []) <->
             In s required /\ ~ In s token).
Proof.
  assert (E := collect_missing_filter token required []). simpl in E.
  split; [exact E|]. intros s. rewrite E, filter_In, negb_true_iff.
  rewrite <- (py_in_In s token). destruct (py_in s token); intuition congruence.
Qed.

(** ** The endpoint names of the methods *)

Lemma endpoint_scopes_unique (m m' : method) (endpoint : string)
    (s s' : list TokenScope) :
  declared m = Some (endpoint, s) ->
  declared m' = Some (endpoint, s') ->
  s = s'.
Proof.
  destruct m; simpl; intros H; inversion H; subst; clear H;
    destruct m'; simpl; intros H'; inversion H'; reflexivity.
Qed.

(** X13: an endpoint name stands for one list of required scopes: two
    methods, of whatever classes and with whatever arguments, that hand the
    same endpoint name to [check_scopes] hand it the same scopes. *)
Theorem X13_endpoint_determines_scopes (m m' : method) (endpoint : string)
    (s s' : list TokenScope) :
  declared m = Some (endpoint, s) ->
  declared m' = Some (endpoint, s') ->
  s = s'.
Proof.
  destruct m; simpl; intros H; inversion H; subst; clear H;
    destruct m'; simpl; intros H'; inversion H'; reflexivity.
Qed.

Lemma X13_endpoint_determines_scopes_witness :
  ["read_products"] = ["read_products"].
Proof.
  apply (X13_endpoint_determines_scopes (Product_get "count") Product_count
           "GET /products/count").
  - reflexivity.
  - reflexivity.
Defined.

(** ** Methods on a resource as constructed *)

Lemma public_as_private_keeps_self (srv : server) (fuel : nat) :
  keeps_self (public_as_private srv fuel).
Proof.
  split; [|split; [|split]]; simpl.
  - intros u st. apply (perform_trace srv fuel DELETE u None None st).
  - intros u query st. apply (perform_trace srv fuel GET u None query st).
  - intros u body st. apply (perform_trace srv fuel PUT u body None st).
  - intros u body st. apply (perform_trace srv fuel POST u body None st).
Qed.

(** What a method does to the resource object is what its scope check
    does. *)
Lemma call_self (srv : server) (fuel : nat) (h : private_helpers) (m : method)
    (st : state) :
  keeps_self h ->
  self (snd (call srv fuel h m st)) =
  match declared m with
  | Some (endpoint, required) => self (snd (check_scopes endpoint required st))
  | None => self st
  end.
Proof.
  intros (Hdel & Hget & Hput & Hpost).
  destruct (public_request m) as [[[[v url] body] query]|] eqn:Hpub.
  - rewrite (call_public srv fuel h m v url body query Hpub).
    destruct (declared m) as [[endpoint required]|].
    + unfold bind. destruct (check_scopes endpoint required st) as [[[]| |] st1];
        simpl; trivial. apply perform_trace.
    + apply perform_trace.
  - destruct m; try discriminate; simpl;
      unfold DiscountResource.create, DiscountResource.get,
        DiscountResource.update, DiscountResource.delete, DiscountResource.list,
        AsyncBatchResource.create, AsyncBatchResource.create_task,
        AsyncBatchResource.get, AsyncBatchResource.list,
        AsyncBatchResource.list_tasks, AsyncBatchResource.process, bind;
      match goal with
      | |- context [check_scopes ?e ?s st] => set (c := check_scopes e s st)
      end;
      try match goal with
      | |- context [check_scopes ?e ?s st] => change (check_scopes e s st) with c
      end;
      clearbody c; destruct c as [[[]| |] st1]; simpl; auto.
Qed.

Lemma lacking_scopes (a b : RechargeResource) (required : list TokenScope) :
  scopes a = scopes b -> lacking a required = lacking b required.
Proof. intros H. unfold lacking. now rewrite H. Qed.

(** On a resource used through its methods only, the token is the one it was
    constructed with, and an endpoint is approved only if the token holds
    the scopes of every method that names it. *)
Lemma used_approvals (r : RechargeResource) (st : state) :
  allowed_endpoints r = [] ->
  used r st ->
  scopes (self st) = scopes r /\
  (forall endpoint,
      py_in endpoint (allowed_endpoints (self st)) = true ->
      forall m s, declared m = Some (endpoint, s) -> lacking r s = []).
Proof.
  intros Hfresh.
  induction 1 as [|st srv fuel h m _ (IHs & IHa) Hh
                  |st srv fuel v url body query _ IH].
  - simpl. split; [reflexivity|]. rewrite Hfresh. discriminate.
  - rewrite (call_self srv fuel h m st Hh).
    destruct (declared m) as [[endpoint required]|] eqn:Hd; [|now split].
    destruct (check_scopes endpoint required st) as [[[]| |] st1] eqn:Hc; simpl.
    + apply check_scopes_returns in Hc.
      destruct Hc as [[_ ->]|(_ & _ & Hl & ->)]; [now split|]. simpl.
      split; [exact IHs|]. intros e He m' s' Hd'.
      rewrite py_in_app in He. apply orb_true_iff in He as [He|He].
      * now apply (IHa e He m').
      * simpl in He. destruct (String.eqb_spec e endpoint) as [E|]; [|discriminate].
        rewrite E in Hd'.
        rewrite <- (endpoint_scopes_unique m m' endpoint required s' Hd Hd').
        now rewrite <- (lacking_scopes (self st) r required IHs).
    + apply check_scopes_raise_unchanged in Hc. subst st1. now split.
    + now apply check_scopes_has_fuel in Hc.
  - destruct (perform_trace srv fuel v url body query st) as [-> _]. exact IH.
Qed.

(** X14: on a resource that has been used, since its construction, only
    through the methods the four resource classes define and through the
    HTTP helpers (never by calling the inherited [check_scopes] directly,
    never by assigning to its attributes, and with private helpers that
    leave the resource object alone), the list of approved endpoints never
    lets a method through that the token has no right to: either the token
    holds every scope the method declares, or the method raises
    [ValueError] and leaves the store and the trace as they were, so that
    no request is issued. *)
Theorem X14_requests_need_the_declared_scopes (r : RechargeResource)
    (st : state) (srv : server) (fuel : nat) (h : private_helpers) (m : method)
    (endpoint : string) (required : list TokenScope) :
  allowed_endpoints r = [] ->
  used r st ->
  declared m = Some (endpoint, required) ->
  (forall s, In s required -> In s (or_empty (scopes r))) \/
  (exists msg, call srv fuel h m st = (Raise (ValueError msg), st)).
Proof.
  intros Hfresh Hused Hd.
  destruct (used_approvals r st Hfresh Hused) as (Hs & Ha).
  destruct (call_declared srv fuel h m endpoint required Hd) as [rest Hrest].
  destruct (check_scopes_cases endpoint required st)
    as [[Hin _]|[[Hnew Hc]|[_ [msg Hc]]]].
  - left. intros s Hsin. apply py_in_In.
    now apply (proj1 (lacking_nil r required) (Ha endpoint Hin m required Hd)).
  - left. apply check_scopes_returns in Hc.
    destruct Hc as [[Hin _]|(_ & _ & Hl & _)]; [congruence|].
    rewrite (lacking_scopes (self st) r required Hs) in Hl.
    intros s Hsin. apply py_in_In. now apply (proj1 (lacking_nil r required) Hl).
  - right. exists msg. rewrite Hrest. unfold bind. now rewrite Hc.
Qed.

Lemma X14_requests_need_the_declared_scopes_witness :
  let srv := always ok_response in
  let st := snd (call srv 1 (public_as_private srv 1) (Product_list page_two)
                   (fresh reader)) in
  (forall s, In s ["write_products"] -> In s (or_empty (scopes reader))) \/
  (exists msg,
      call srv 1 (public_as_private srv 1) (Product_delete "7") st =
        (Raise (ValueError msg), st)).
Proof.
  intros srv st.
  apply (X14_requests_need_the_declared_scopes reader st srv 1
           (public_as_private srv 1) (Product_delete "7")
           "DELETE /products/7" ["write_products"]).
  - reflexivity.
  - apply used_call; [apply used_fresh | apply public_as_private_keeps_self].
  - reflexivity.
Defined.

Lemma emitted_same_trace (st st1 st' : state) :
  trace st1 = trace st -> emitted st st' = emitted st1 st'.
Proof. intros H. unfold emitted. now rewrite H. Qed.

(** X15: every request that a method of [AddressResource] or
    [ProductResource] issues, retries included, goes to a URL under
    [https://api.rechargeapps.com/] and carries the headers of the resource,
    the access token among them. *)
Theorem X15_requests_go_to_the_api_host (srv : server) (fuel : nat)
    (h : private_helpers) (m : method) (st : state) :
  public_request m <> None ->
  Forall (fun rq =>
            prefix "https://api.rechargeapps.com/" (req_url rq) = true /\
            req_headers rq =
              [ ("Accept", Some "application/json");
                ("Content-Type", Some "application/json");
                ("X-Recharge-Access-Token", access_token (self st)) ])
    (requests_of (emitted st (snd (call srv fuel h m st)))).
Proof.
  intros Hpub.
  destruct (public_request m) as [[[[v url] body] query]|] eqn:Hreq; [|congruence].
  assert (Hurl : prefix "https://api.rechargeapps.com/" url = true).
  { clear -Hreq. destruct m; simpl in Hreq; inversion Hreq; reflexivity. }
  assert (Hrun : forall st1,
            trace st1 = trace st ->
            access_token (self st1) = access_token (self st) ->
            Forall (fun rq =>
                      prefix "https://api.rechargeapps.com/" (req_url rq) = true /\
                      req_headers rq =
                        [ ("Accept", Some "application/json");
                          ("Content-Type", Some "application/json");
                          ("X-Recharge-Access-Token", access_token (self st)) ])
              (requests_of (emitted st (snd (perform srv fuel v url body query st1))))).
  { intros st1 Htr Htok. rewrite (emitted_same_trace st st1 _ Htr).
    pose proof (perform_emitted srv fuel v url body query st1) as Hatt.
    apply attempts_requests in Hatt; [|now destruct v].
    assert (Hone : forall b q,
               prefix "https://api.rechargeapps.com/"
                 (req_url (first_request v url b q (self st1))) = true /\
               req_headers (first_request v url b q (self st1)) =
                 [ ("Accept", Some "application/json");
                   ("Content-Type", Some "application/json");
                   ("X-Recharge-Access-Token", access_token (self st)) ]).
    { intros b q. simpl. unfold headers. now rewrite Htok. }
    destruct Hatt as [E|[k E]]; rewrite E; [constructor|].
    constructor; [apply Hone|]. apply Forall_forall. intros rq Hrq.
    apply repeat_spec in Hrq. subst rq. apply Hone. }
  rewrite (call_public srv fuel h m v url body query Hreq).
  destruct (declared m) as [[endpoint required]|]; [|now apply Hrun].
  unfold bind. destruct (check_scopes endpoint required st) as [o st1] eqn:Hc.
  destruct (check_scopes_frame _ _ _ _ _ Hc) as (_ & Htok & _ & _ & Htr).
  destruct o as [[]| |]; simpl.
  - now apply Hrun.
  - rewrite (emitted_app st st1 []); [constructor | now rewrite Htr, app_nil_r].
  - rewrite (emitted_app st st1 []); [constructor | now rewrite Htr, app_nil_r].
Qed.

Lemma X15_requests_go_to_the_api_host_witness :
  let srv := limited 1 in
  Forall (fun rq =>
            prefix "https://api.rechargeapps.com/" (req_url rq) = true /\
            req_headers rq =
              [ ("Accept", Some "application/json");
                ("Content-Type", Some "application/json");
                ("X-Recharge-Access-Token", Some "token") ])
    (requests_of
       (emitted (fresh reader)
          (snd (call srv 2 (public_as_private srv 2)
                  (Address_list "12" (Some page_two)) (fresh reader))))).
Proof.
  intros srv.
  apply (X15_requests_go_to_the_api_host srv 2 (public_as_private srv 2)
           (Address_list "12" (Some page_two)) (fresh reader)).
  discriminate.
Defined.
